(** * Yatube API: a shallow embedding of [yatube_api/api] and its contract.

    The development follows the three source files:
    - [serializers.py]: field validation of the four serializers;
    - [views.py]: the pagination class and the seven views;
    - [urls.py]: the routing table, here the request type and [dispatch].

    Django's ORM and Django REST framework (DRF) are libraries the source
    calls; the parts of them that the views run through (QuerySet [filter],
    [get], [exists], [create]; the generic mixins; [PageNumberPagination];
    the permission classes; the exception handler) are written out below as
    the functions the views call, under the libraries' own names.

    Conventions.
    - A table is the list of its rows in insertion order.
    - A foreign key is stored as the referenced primary key.
    - A response body carries rows; the rendering of a row to JSON (author
      shown as a username, and so on) is one more per-row map and is left
      out, as are timestamps and the bytes of uploaded images.
    - A primary key in a request body or a path is an integer.
    - Strings are byte strings; white space and letter case are ASCII. *)

From Stdlib Require Import ZArith List String Ascii Bool Lia DecimalString.
Import ListNotations.

Local Open Scope string_scope.
Local Open Scope Z_scope.

(** ** Python strings *)

Module PyStr.

(** [str.isspace] on ASCII: TAB..CR, FS..US and the space. *)
Definition isspace (c : ascii) : bool :=
  let n := Z.of_nat (nat_of_ascii c) in
  ((9 <=? n) && (n <=? 13)) || ((28 <=? n) && (n <=? 32)).

Fixpoint lstrip (s : string) : string :=
  match s with
  | EmptyString => EmptyString
  | String c s' => if isspace c then lstrip s' else s
  end.

Fixpoint rstrip (s : string) : string :=
  match s with
  | EmptyString => EmptyString
  | String c s' =>
      match rstrip s' with
      | EmptyString => if isspace c then EmptyString else String c EmptyString
      | r => String c r
      end
  end.

(** [s.strip()] *)
Definition strip (s : string) : string := rstrip (lstrip s).

Definition lower_char (c : ascii) : ascii :=
  let n := nat_of_ascii c in
  if ((65 <=? n) && (n <=? 90))%nat then ascii_of_nat (n + 32) else c.

(** [s.lower()] *)
Fixpoint lower (s : string) : string :=
  match s with
  | EmptyString => EmptyString
  | String c s' => String (lower_char c) (lower s')
  end.

Fixpoint startswith (s p : string) : bool :=
  match p, s with
  | EmptyString, _ => true
  | String _ _, EmptyString => false
  | String a p', String b s' => Ascii.eqb a b && startswith s' p'
  end.

(** [needle in hay] *)
Fixpoint contains (hay needle : string) : bool :=
  match hay with
  | EmptyString => startswith hay needle
  | String _ hay' => startswith hay needle || contains hay' needle
  end.

(** Python truthiness of a string. *)
Definition truthy (s : string) : bool :=
  match s with EmptyString => false | _ => true end.

Definition digit (c : ascii) : option Z :=
  let n := Z.of_nat (nat_of_ascii c) in
  if (48 <=? n) && (n <=? 57) then Some (n - 48) else None.

(** Decimal digits, single underscores allowed between two digits. *)
Fixpoint digits (acc : Z) (after_digit : bool) (s : string) : option Z :=
  match s with
  | EmptyString => if after_digit then Some acc else None
  | String c s' =>
      match digit c with
      | Some d => digits (10 * acc + d) true s'
      | None =>
          if Ascii.eqb c "_" && after_digit then digits acc false s'
          else None
      end
  end.

(** [int(s)]: [None] stands for [ValueError]. *)
Definition int (s : string) : option Z :=
  match strip s with
  | String "-" r => option_map Z.opp (digits 0 false r)
  | String "+" r => digits 0 false r
  | r => digits 0 false r
  end.

(** [str(n)] *)
Definition of_Z (n : Z) : string := NilZero.string_of_int (Z.to_int n).

End PyStr.

(** ** Exceptions and the result of a Python call *)

(** The errors a serializer collects: field name and message. *)
Definition ErrorDict := list (string * string).

Inductive exn : Type :=
| DoesNotExist (model : string)             (* Model.DoesNotExist *)
| MultipleObjectsReturned (model : string)
| ValidationError (detail : ErrorDict)      (* rest_framework: 400 *)
| Http404                                   (* django.http: 404 *)
| NotFound (detail : string)                (* rest_framework: 404 *)
| NotAuthenticated                          (* rest_framework: 401 *)
| AttributeError (msg : string)
| KeyError (key : string).

(** A call either raises or returns. *)
Definition Py (A : Type) : Type := (exn + A)%type.

Definition ret {A} (a : A) : Py A := inr a.
Definition raise {A} (e : exn) : Py A := inl e.
Definition bind {A B} (m : Py A) (k : A -> Py B) : Py B :=
  match m with
  | inl e => inl e
  | inr a => k a
  end.

Notation "x <- m ;; k" := (bind m (fun x => k))
  (at level 61, m at next level, right associativity).

(** [try: body / except E: handler], [E] given by its membership test. *)
Definition try_except {A} (body : Py A) (E : exn -> bool) (handler : Py A)
  : Py A :=
  match body with
  | inl e => if E e then handler else inl e
  | inr a => inr a
  end.

Definition is_DoesNotExist (model : string) (e : exn) : bool :=
  match e with
  | DoesNotExist m => String.eqb m model
  | _ => false
  end.

(** ** The data model

    [posts/models.py] and the user model are not among the source files;
    the rows below have the fields of section 3 of the spec. *)

(** Modelled from the spec: the user model behind [get_user_model()], an
    identity with a unique username. Two model instances are equal when
    their primary keys are. *)
Module User.
Record t : Type := mk { pk : Z; username : string }.
Definition eqb (a b : t) : bool := pk a =? pk b.
End User.

(** Modelled from the spec: [posts.models.Group]. *)
Module Group.
Record t : Type :=
  mk { pk : Z; title : string; slug : string; description : string }.
End Group.

(** Modelled from the spec: [posts.models.Post]; [author] and [group] are
    foreign keys, [group] and [image] may be null. *)
Module Post.
Record t : Type :=
  mk { pk : Z; text : string; author : Z;
       image : option string; group : option Z }.
End Post.

(** Modelled from the spec: [posts.models.Comment]. *)
Module Comment.
Record t : Type := mk { pk : Z; text : string; author : Z; post : Z }.
End Comment.

(** Modelled from the spec: [posts.models.Follow], a directed edge from
    [user] to [following]. *)
Module Follow.
Record t : Type := mk { pk : Z; user : Z; following : Z }.
End Follow.

(** The store: five tables and the counters that hand out the primary keys
    of the three tables this API inserts into. *)
Record DB : Type := mkDB {
  users : list User.t;
  groups : list Group.t;
  posts : list Post.t;
  comments : list Comment.t;
  follows : list Follow.t;
  post_seq : Z;
  comment_seq : Z;
  follow_seq : Z
}.

(** ** QuerySets *)

Section QuerySet.
Context {A : Type}.

(** [qs.filter(...)], the keyword arguments given as a test on rows. *)
Definition qs_filter (cond : A -> bool) (qs : list A) : list A :=
  filter cond qs.

(** [qs.exists()] *)
Definition qs_exists (qs : list A) : bool :=
  match qs with
  | [] => false
  | _ :: _ => true
  end.

(** [qs.get(...)] *)
Definition qs_get (model : string) (cond : A -> bool) (qs : list A) : Py A :=
  match qs_filter cond qs with
  | [] => raise (DoesNotExist model)
  | [x] => ret x
  | _ :: _ :: _ => raise (MultipleObjectsReturned model)
  end.

(** [django.shortcuts.get_object_or_404] *)
Definition get_object_or_404 (model : string) (cond : A -> bool)
    (qs : list A) : Py A :=
  try_except (qs_get model cond qs) (is_DoesNotExist model) (raise Http404).
End QuerySet.

(** ** Requests *)

(** An entry of the parsed body [request.data]: missing, JSON [null], or a
    value. [dict_get] is [request.data.get(key)]. *)
Inductive field (A : Type) : Type :=
| Absent
| Null
| Value (a : A).
Arguments Absent {A}.
Arguments Null {A}.
Arguments Value {A} a.

Definition dict_get {A} (f : field A) : option A :=
  match f with
  | Value a => Some a
  | Absent | Null => None
  end.

(** [request.query_params]: the pairs of the query string in order. A key
    given several times reads as its last value. *)
Definition QueryDict : Type := list (string * string).

Fixpoint qd_get (q : QueryDict) (key : string) : option string :=
  match q with
  | [] => None
  | (k, v) :: q' =>
      match qd_get q' key with
      | Some v' => Some v'
      | None => if String.eqb k key then Some v else None
      end
  end.

(** [key in request.query_params] *)
Definition qd_mem (q : QueryDict) (key : string) : bool :=
  match qd_get q key with
  | Some _ => true
  | None => false
  end.

(** An uploaded file: its name, and whether its bytes decode as an image. *)
Record Upload : Type := mkUpload { file_name : string; is_image : bool }.

Inductive Method : Type := GET | POST | PUT | PATCH | DELETE.

(** ** Responses *)

Inductive Data : Type :=
| NoData
| Detail (msg : string)                  (* {"detail": msg} *)
| Errors (detail : ErrorDict)            (* {field: message, ...} *)
| Uncaught (e : exn)                     (* the server error page *)
| OnePost (p : Post.t)
| Posts (l : list Post.t)
| OneComment (c : Comment.t)
| Comments (l : list Comment.t)
| OneGroup (g : Group.t)
| Groups (l : list Group.t)
| OneFollow (f : Follow.t)
| Follows (l : list Follow.t)
| Envelope (count : Z) (next previous : option Z) (results : Data).

Record Response : Type := mkResponse { data : Data; status_code : Z }.

Module status.
Definition HTTP_200_OK : Z := 200.
Definition HTTP_201_CREATED : Z := 201.
Definition HTTP_204_NO_CONTENT : Z := 204.
Definition HTTP_400_BAD_REQUEST : Z := 400.
Definition HTTP_401_UNAUTHORIZED : Z := 401.
Definition HTTP_403_FORBIDDEN : Z := 403.
Definition HTTP_404_NOT_FOUND : Z := 404.
Definition HTTP_500_INTERNAL_SERVER_ERROR : Z := 500.
End status.

(** [rest_framework.views.exception_handler]; what it does not handle
    leaves the view and becomes the server error response. *)
Definition exception_handler (e : exn) : Response :=
  match e with
  | ValidationError d => mkResponse (Errors d) status.HTTP_400_BAD_REQUEST
  | Http404 => mkResponse (Detail "Not found.") status.HTTP_404_NOT_FOUND
  | NotFound d => mkResponse (Detail d) status.HTTP_404_NOT_FOUND
  | NotAuthenticated =>
      mkResponse (Detail "Authentication credentials were not provided.")
        status.HTTP_401_UNAUTHORIZED
  | DoesNotExist _ | MultipleObjectsReturned _ | AttributeError _
  | KeyError _ =>
      mkResponse (Uncaught e) status.HTTP_500_INTERNAL_SERVER_ERROR
  end.

(** ** Writes to the store *)

Definition insert_post (db : DB) (text : string) (author : Z)
    (image : option string) (group : option Z) : Post.t * DB :=
  let instance := Post.mk (post_seq db) text author image group in
  (instance,
   mkDB (users db) (groups db) (posts db ++ [instance]) (comments db)
     (follows db) (post_seq db + 1) (comment_seq db) (follow_seq db)).

Definition insert_comment (db : DB) (text : string) (author post : Z)
  : Comment.t * DB :=
  let instance := Comment.mk (comment_seq db) text author post in
  (instance,
   mkDB (users db) (groups db) (posts db) (comments db ++ [instance])
     (follows db) (post_seq db) (comment_seq db + 1) (follow_seq db)).

Definition insert_follow (db : DB) (user following : Z) : Follow.t * DB :=
  let instance := Follow.mk (follow_seq db) user following in
  (instance,
   mkDB (users db) (groups db) (posts db) (comments db)
     (follows db ++ [instance]) (post_seq db) (comment_seq db)
     (follow_seq db + 1)).

(** [instance.save()] of a row that is in the table: the row with that key
    is overwritten in place. *)
Definition overwrite {A} (key : A -> Z) (instance : A) (l : list A) : list A :=
  map (fun x => if key x =? key instance then instance else x) l.

Definition save_post (db : DB) (instance : Post.t) : DB :=
  mkDB (users db) (groups db) (overwrite Post.pk instance (posts db))
    (comments db) (follows db) (post_seq db) (comment_seq db) (follow_seq db).

Definition save_comment (db : DB) (instance : Comment.t) : DB :=
  mkDB (users db) (groups db) (posts db)
    (overwrite Comment.pk instance (comments db))
    (follows db) (post_seq db) (comment_seq db) (follow_seq db).

(** Modelled from the spec: [instance.delete()] of a post deletes its
    comments as well (section 3: the cascade from [Comment.post]). *)
Definition delete_post (db : DB) (instance : Post.t) : DB :=
  mkDB (users db) (groups db)
    (filter (fun p => negb (Post.pk p =? Post.pk instance)) (posts db))
    (filter (fun c => negb (Comment.post c =? Post.pk instance)) (comments db))
    (follows db) (post_seq db) (comment_seq db) (follow_seq db).

Definition delete_comment (db : DB) (instance : Comment.t) : DB :=
  mkDB (users db) (groups db) (posts db)
    (filter (fun c => negb (Comment.pk c =? Comment.pk instance)) (comments db))
    (follows db) (post_seq db) (comment_seq db) (follow_seq db).

(** ** serializers.py *)

(** What running one field of a serializer gives: the field is left out
    ([SkipField]), it fails with a message, or it yields a value. *)
Inductive outcome (A : Type) : Type :=
| Skipped
| Failed (msg : string)
| Valid (a : A).
Arguments Skipped {A}.
Arguments Failed {A} msg.
Arguments Valid {A} a.

Definition error_of {A} (name : string) (o : outcome A) : ErrorDict :=
  match o with
  | Failed msg => [(name, msg)]
  | Skipped | Valid _ => []
  end.

Definition value_of {A} (o : outcome A) : option A :=
  match o with
  | Valid a => Some a
  | Skipped | Failed _ => None
  end.

Definition dquote : string := String (ascii_of_nat 34) EmptyString.

Module fields.

Definition has_nul (s : string) : bool :=
  PyStr.contains s (String Ascii.zero EmptyString).

(** [serializers.CharField()] with its defaults: required, not null, not
    blank, white space trimmed, no NUL character. *)
Definition CharField (partial : bool) (d : field string) : outcome string :=
  match d with
  | Absent => if partial then Skipped else Failed "This field is required."
  | Null => Failed "This field may not be null."
  | Value s =>
      let value := PyStr.strip s in
      if negb (PyStr.truthy value) then Failed "This field may not be blank."
      else if has_nul value then Failed "Null characters are not allowed."
      else Valid value
  end.

(** [serializers.ImageField(required=False)] *)
Definition ImageField (d : field Upload) : outcome string :=
  match d with
  | Absent => Skipped
  | Null => Failed "This field may not be null."
  | Value f =>
      if is_image f then Valid (file_name f)
      else Failed "Upload a valid image."
  end.

(** [PrimaryKeyRelatedField(queryset=Group.objects.all(), required=False,
    allow_null=True)], the field a [ModelSerializer] builds for a nullable
    foreign key. *)
Definition PrimaryKeyRelatedField (queryset : list Group.t) (d : field Z)
  : Py (outcome (option Z)) :=
  match d with
  | Absent => ret Skipped
  | Null => ret (Valid None)
  | Value pk =>
      try_except
        (g <- qs_get "Group" (fun g => Group.pk g =? pk) queryset ;;
         ret (Valid (Some (Group.pk g))))
        (is_DoesNotExist "Group")
        (ret (Failed ("Invalid pk " ++ dquote ++ PyStr.of_Z pk ++ dquote
                      ++ " - object does not exist.")))
  end.

End fields.

(** [PostSerializer]: [fields = "__all__"] over the model, [author] and
    [created_at] read-only, [image] optional. The fields that take input
    are, in the order the serializer runs them, [image], [text], [group];
    an [author] entry in the body is never read. *)
Module PostSerializer.

Record initial_data : Type := mk {
  text : field string;
  image : field Upload;
  group : field Z;
  author : field string
}.

Record validated_data : Type := mkv {
  v_text : option string;
  v_image : option string;
  v_group : option (option Z)
}.

(** [serializer.is_valid(raise_exception=True)] *)
Definition is_valid (db : DB) (partial : bool) (d : initial_data)
  : Py validated_data :=
  let img := fields.ImageField (image d) in
  let txt := fields.CharField partial (text d) in
  grp <- fields.PrimaryKeyRelatedField (groups db) (group d) ;;
  match (error_of "image" img ++ error_of "text" txt
         ++ error_of "group" grp)%list with
  | [] => ret (mkv (value_of txt) (value_of img) (value_of grp))
  | errors => raise (ValidationError errors)
  end.

Definition or_default {A} (o : option A) (default : A) : A :=
  match o with
  | Some a => a
  | None => default
  end.

(** [serializer.save(author=..., group=...)] on a serializer without an
    instance: the keyword arguments override the validated data. *)
Definition save_create (db : DB) (v : validated_data) (author : Z)
    (group : option Z) : Post.t * DB :=
  insert_post db (or_default (v_text v) EmptyString) author (v_image v) group.

(** [serializer.save()] on a serializer with an instance: each validated
    attribute is set, the others are kept. *)
Definition save_update (db : DB) (instance : Post.t) (v : validated_data)
  : Post.t * DB :=
  let instance' :=
    Post.mk (Post.pk instance)
      (or_default (v_text v) (Post.text instance))
      (Post.author instance)
      (match v_image v with
       | Some f => Some f
       | None => Post.image instance
       end)
      (or_default (v_group v) (Post.group instance)) in
  (instance', save_post db instance').

End PostSerializer.

(** [CommentSerializer]: [author] and [post] are [ReadOnlyField]s, [id] and
    [created] are set by the store; only [text] takes input. *)
Module CommentSerializer.

Record initial_data : Type := mk {
  text : field string;
  author : field string;
  post : field Z
}.

Record validated_data : Type := mkv { v_text : option string }.

Definition is_valid (partial : bool) (d : initial_data) : Py validated_data :=
  let txt := fields.CharField partial (text d) in
  match error_of "text" txt with
  | [] => ret (mkv (value_of txt))
  | errors => raise (ValidationError errors)
  end.

(** [serializer.save(author=..., post=...)] *)
Definition save_create (db : DB) (v : validated_data) (author post : Z)
  : Comment.t * DB :=
  insert_comment db (PostSerializer.or_default (v_text v) EmptyString)
    author post.

Definition save_update (db : DB) (instance : Comment.t) (v : validated_data)
  : Comment.t * DB :=
  let instance' :=
    Comment.mk (Comment.pk instance)
      (PostSerializer.or_default (v_text v) (Comment.text instance))
      (Comment.author instance) (Comment.post instance) in
  (instance', save_comment db instance').

End CommentSerializer.

(** [FollowSerializer]: [user] is a [ReadOnlyField], [following] a
    [CharField] with the hook [validate_following]. *)
Module FollowSerializer.

Record initial_data : Type := mk {
  following : field string;
  user : field string
}.

Record validated_data : Type := mkv { v_following : option string }.

(** [validate_following(self, value)]; the [ValidationError] it raises is
    recorded by the serializer under the field's name. *)
Definition validate_following (db : DB) (value : string)
  : Py (outcome string) :=
  try_except
    (_ <- qs_get "User" (fun u => String.eqb (User.username u) value)
            (users db) ;;
     ret (Valid value))
    (is_DoesNotExist "User")
    (ret (Failed ("User with username " ++ value ++ " does not exist."))).

Definition is_valid (db : DB) (d : initial_data) : Py validated_data :=
  fol <- match fields.CharField false (following d) with
         | Valid value => validate_following db value
         | o => ret o
         end ;;
  match error_of "following" fol with
  | [] => ret (mkv (value_of fol))
  | errors => raise (ValidationError errors)
  end.

End FollowSerializer.

(** ** Framework pieces the views are built from *)

Module permissions.
Definition SAFE_METHODS (m : Method) : bool :=
  match m with
  | GET => true
  | POST | PUT | PATCH | DELETE => false
  end.

Definition is_authenticated (user : option User.t) : bool :=
  match user with
  | Some _ => true
  | None => false
  end.

Definition AllowAny (m : Method) (user : option User.t) : bool := true.

Definition IsAuthenticated (m : Method) (user : option User.t) : bool :=
  is_authenticated user.

Definition IsAuthenticatedOrReadOnly (m : Method) (user : option User.t)
  : bool :=
  SAFE_METHODS m || is_authenticated user.
End permissions.

(** [APIView.initial]: the permission check that runs before the handler.
    The caller is [None] when the request carries no valid token. *)
Definition check_permissions
    (permission_class : Method -> option User.t -> bool)
    (m : Method) (user : option User.t) : Py unit :=
  if permission_class m user then ret tt else raise NotAuthenticated.

(** [request.user] for a handler that is only reached by authenticated
    callers. *)
Definition request_user (user : option User.t) : Py User.t :=
  match user with
  | Some u => ret u
  | None => raise NotAuthenticated
  end.

(** [rest_framework.pagination.PageNumberPagination] over Django's
    [Paginator], with the class attributes as arguments. *)
Module PageNumberPagination.

Record Page (A : Type) : Type := mkPage {
  object_list : list A;
  number : Z;
  count : Z;
  num_pages : Z
}.
Arguments mkPage {A}.
Arguments object_list {A}.
Arguments number {A}.
Arguments count {A}.
Arguments num_pages {A}.

Definition _positive_int (integer_string : string) (strict : bool)
    (cutoff : Z) : option Z :=
  match PyStr.int integer_string with
  | None => None
  | Some n =>
      if (n <? 0) || ((n =? 0) && strict) then None
      else Some (if cutoff =? 0 then n else Z.min n cutoff)
  end.

Definition get_page_size (page_size max_page_size : Z)
    (page_size_query_param : string) (q : QueryDict) : Z :=
  match qd_get q page_size_query_param with
  | Some s =>
      match _positive_int s true max_page_size with
      | Some n => n
      | None => page_size
      end
  | None => page_size
  end.

(** [ceil(max(1, count) / per_page)] *)
Definition Paginator_num_pages (count per_page : Z) : Z :=
  (Z.max 1 count + per_page - 1) / per_page.

(** [request.query_params.get(page_query_param) or 1], ["last"] read as
    the last page. *)
Definition get_page_number (page_query_param : string) (q : QueryDict)
    (num_pages : Z) : string + Z :=
  match qd_get q page_query_param with
  | Some s =>
      if PyStr.truthy s
      then if String.eqb s "last" then inr num_pages else inl s
      else inr 1
  | None => inr 1
  end.

(** [Paginator.validate_number]: [None] stands for [InvalidPage]. *)
Definition Paginator_validate_number (number : string + Z) (num_pages : Z)
  : option Z :=
  match match number with
        | inl s => PyStr.int s
        | inr n => Some n
        end with
  | None => None
  | Some n =>
      if n <? 1 then None
      else if n >? num_pages then None
      else Some n
  end.

(** [object_list[bottom:top]] *)
Definition slice {A} (l : list A) (bottom top : Z) : list A :=
  firstn (Z.to_nat (top - bottom)) (skipn (Z.to_nat bottom) l).

Definition Paginator_page {A} (l : list A) (per_page number : Z) : list A :=
  let count := Z.of_nat (List.length l) in
  let bottom := (number - 1) * per_page in
  let top := bottom + per_page in
  let top := if top >=? count then count else top in
  slice l bottom top.

Definition paginate_queryset {A} (page_size max_page_size : Z)
    (page_size_query_param page_query_param : string)
    (queryset : list A) (q : QueryDict) : Py (option (Page A)) :=
  let per_page :=
    get_page_size page_size max_page_size page_size_query_param q in
  if per_page =? 0 then ret None
  else
    let count := Z.of_nat (List.length queryset) in
    let num_pages := Paginator_num_pages count per_page in
    let page_number := get_page_number page_query_param q num_pages in
    match Paginator_validate_number page_number num_pages with
    | None => raise (NotFound "Invalid page.")
    | Some n =>
        ret (Some (mkPage (Paginator_page queryset per_page n) n count
                     num_pages))
    end.

(** The links of the envelope are given by the page they lead to. *)
Definition get_paginated_response {A} (page : Page A) (results : Data)
  : Response :=
  mkResponse
    (Envelope (count page)
       (if number page <? num_pages page then Some (number page + 1)
        else None)
       (if 1 <? number page then Some (number page - 1) else None)
       results)
    status.HTTP_200_OK.

End PageNumberPagination.

(** [ListModelMixin.list]; [pagination_class = None] is [None] here. *)
Definition ListModelMixin_list {A} (many : list A -> Data)
    (pagination_class :
       option (list A -> QueryDict -> Py (option (PageNumberPagination.Page A))))
    (queryset : list A) (q : QueryDict) : Py Response :=
  page <- match pagination_class with
          | None => ret None
          | Some paginate_queryset => paginate_queryset queryset q
          end ;;
  match page with
  | Some p =>
      ret (PageNumberPagination.get_paginated_response p
             (many (PageNumberPagination.object_list p)))
  | None => ret (mkResponse (many queryset) status.HTTP_200_OK)
  end.

(** ** views.py *)

Module StandardResultsPagination.
Definition page_size : Z := 10.
Definition max_page_size : Z := 100.
Definition page_size_query_param : string := "limit".
Definition page_query_param : string := "offset".

(** The inherited [get_page_size] with the attributes of this class. *)
Definition get_page_size (q : QueryDict) : Z :=
  PageNumberPagination.get_page_size page_size max_page_size
    page_size_query_param q.

Definition super_paginate_queryset {A} (queryset : list A) (q : QueryDict)
  : Py (option (PageNumberPagination.Page A)) :=
  PageNumberPagination.paginate_queryset page_size max_page_size
    page_size_query_param page_query_param queryset q.

Definition paginate_queryset {A} (queryset : list A) (q : QueryDict)
  : Py (option (PageNumberPagination.Page A)) :=
  if qd_mem q "limit" || qd_mem q "offset"
  then super_paginate_queryset queryset q
  else ret None.
End StandardResultsPagination.

Module PostListCreateView.

Definition queryset (db : DB) : list Post.t := posts db.
Definition permission_classes := permissions.IsAuthenticatedOrReadOnly.

(** [perform_create(self, serializer)].
    [serializer] is the [PostSerializer] instance the mixin passes in. It
    has no attribute [ValidationError] (that name belongs to the module
    [rest_framework.serializers], which views.py does not import), so in
    the [except] branch evaluating [serializer.ValidationError] raises
    [AttributeError]. *)
Definition perform_create (db : DB) (request_user : User.t)
    (request_data : PostSerializer.initial_data)
    (serializer : PostSerializer.validated_data) : Py (Post.t * DB) :=
  let group_id := dict_get (PostSerializer.group request_data) in
  group <- try_except
             (match group_id with
              | Some pk =>
                  if negb (pk =? 0)
                  then g <- qs_get "Group" (fun g => Group.pk g =? pk)
                              (groups db) ;;
                       ret (Some (Group.pk g))
                  else ret None
              | None => ret None
              end)
             (is_DoesNotExist "Group")
             (raise (AttributeError
                "'PostSerializer' object has no attribute 'ValidationError'")) ;;
  ret (PostSerializer.save_create db serializer (User.pk request_user) group).

(** [CreateModelMixin.create] *)
Definition create (db : DB) (request_user : User.t)
    (request_data : PostSerializer.initial_data) : Py (Response * DB) :=
  serializer <- PostSerializer.is_valid db false request_data ;;
  r <- perform_create db request_user request_data serializer ;;
  ret (mkResponse (OnePost (fst r)) status.HTTP_201_CREATED, snd r).

Definition list (db : DB) (q : QueryDict) : Py Response :=
  ListModelMixin_list Posts
    (Some StandardResultsPagination.paginate_queryset) (queryset db) q.

End PostListCreateView.

Module PostRetrieveUpdateDestroyView.

Definition queryset (db : DB) : list Post.t := posts db.
Definition permission_classes := permissions.IsAuthenticatedOrReadOnly.

(** [GenericAPIView.get_object] *)
Definition get_object (db : DB) (pk : Z) : Py Post.t :=
  get_object_or_404 "Post" (fun p => Post.pk p =? pk) (queryset db).

Definition retrieve (db : DB) (pk : Z) : Py Response :=
  instance <- get_object db pk ;;
  ret (mkResponse (OnePost instance) status.HTTP_200_OK).

(** [UpdateModelMixin.update] *)
Definition super_update (db : DB) (partial : bool) (pk : Z)
    (request_data : PostSerializer.initial_data) : Py (Response * DB) :=
  instance <- get_object db pk ;;
  serializer <- PostSerializer.is_valid db partial request_data ;;
  let r := PostSerializer.save_update db instance serializer in
  ret (mkResponse (OnePost (fst r)) status.HTTP_200_OK, snd r).

(** [DestroyModelMixin.destroy] *)
Definition super_destroy (db : DB) (pk : Z) : Py (Response * DB) :=
  instance <- get_object db pk ;;
  ret (mkResponse NoData status.HTTP_204_NO_CONTENT, delete_post db instance).

Definition update (db : DB) (request_user : User.t) (partial : bool)
    (pk : Z) (request_data : PostSerializer.initial_data)
  : Py (Response * DB) :=
  instance <- get_object db pk ;;
  if negb (Post.author instance =? User.pk request_user)
  then ret (mkResponse (Detail "You cannot update another author's post.")
              status.HTTP_403_FORBIDDEN, db)
  else super_update db partial pk request_data.

Definition destroy (db : DB) (request_user : User.t) (pk : Z)
  : Py (Response * DB) :=
  instance <- get_object db pk ;;
  if negb (Post.author instance =? User.pk request_user)
  then ret (mkResponse (Detail "You cannot delete another author's post.")
              status.HTTP_403_FORBIDDEN, db)
  else super_destroy db pk.

End PostRetrieveUpdateDestroyView.

Module CommentListCreateView.

Definition permission_classes := permissions.IsAuthenticatedOrReadOnly.

Definition get_queryset (db : DB) (post_id : Z) : list Comment.t :=
  qs_filter (fun c => Comment.post c =? post_id) (comments db).

(** [pagination_class = None] *)
Definition list (db : DB) (post_id : Z) (q : QueryDict) : Py Response :=
  ListModelMixin_list Comments None (get_queryset db post_id) q.

(** [perform_create(self, serializer)]; as in [PostListCreateView], the
    operand of [raise] in the [except] branch is an attribute the
    serializer instance does not have. *)
Definition perform_create (db : DB) (request_user : User.t) (post_id : Z)
    (serializer : CommentSerializer.validated_data) : Py (Comment.t * DB) :=
  post <- try_except
            (qs_get "Post" (fun p => Post.pk p =? post_id) (posts db))
            (is_DoesNotExist "Post")
            (raise (AttributeError
               "'CommentSerializer' object has no attribute 'ValidationError'")) ;;
  ret (CommentSerializer.save_create db serializer (User.pk request_user)
         (Post.pk post)).

Definition create (db : DB) (request_user : User.t) (post_id : Z)
    (request_data : CommentSerializer.initial_data) : Py (Response * DB) :=
  serializer <- CommentSerializer.is_valid false request_data ;;
  r <- perform_create db request_user post_id serializer ;;
  ret (mkResponse (OneComment (fst r)) status.HTTP_201_CREATED, snd r).

End CommentListCreateView.

Module CommentRetrieveUpdateDestroyView.

Definition permission_classes := permissions.IsAuthenticatedOrReadOnly.

Definition get_queryset (db : DB) (post_id comment_id : Z)
  : list Comment.t :=
  qs_filter
    (fun c => (Comment.post c =? post_id) && (Comment.pk c =? comment_id))
    (comments db).

Definition get_object (db : DB) (post_id pk : Z) : Py Comment.t :=
  get_object_or_404 "Comment" (fun c => Comment.pk c =? pk)
    (get_queryset db post_id pk).

Definition retrieve (db : DB) (post_id pk : Z) : Py Response :=
  instance <- get_object db post_id pk ;;
  ret (mkResponse (OneComment instance) status.HTTP_200_OK).

Definition super_update (db : DB) (partial : bool) (post_id pk : Z)
    (request_data : CommentSerializer.initial_data) : Py (Response * DB) :=
  instance <- get_object db post_id pk ;;
  serializer <- CommentSerializer.is_valid partial request_data ;;
  let r := CommentSerializer.save_update db instance serializer in
  ret (mkResponse (OneComment (fst r)) status.HTTP_200_OK, snd r).

Definition super_destroy (db : DB) (post_id pk : Z) : Py (Response * DB) :=
  instance <- get_object db post_id pk ;;
  ret (mkResponse NoData status.HTTP_204_NO_CONTENT,
       delete_comment db instance).

Definition update (db : DB) (request_user : User.t) (partial : bool)
    (post_id pk : Z) (request_data : CommentSerializer.initial_data)
  : Py (Response * DB) :=
  instance <- get_object db post_id pk ;;
  if negb (Comment.author instance =? User.pk request_user)
  then ret (mkResponse
              (Detail "You cannot update another author's comment.")
              status.HTTP_403_FORBIDDEN, db)
  else super_update db partial post_id pk request_data.

Definition destroy (db : DB) (request_user : User.t) (post_id pk : Z)
  : Py (Response * DB) :=
  instance <- get_object db post_id pk ;;
  if negb (Comment.author instance =? User.pk request_user)
  then ret (mkResponse
              (Detail "You cannot delete another author's comment.")
              status.HTTP_403_FORBIDDEN, db)
  else super_destroy db post_id pk.

End CommentRetrieveUpdateDestroyView.

Module GroupListView.
Definition queryset (db : DB) : list Group.t := groups db.
Definition permission_classes := permissions.AllowAny.

Definition list (db : DB) (q : QueryDict) : Py Response :=
  ListModelMixin_list Groups
    (Some StandardResultsPagination.paginate_queryset) (queryset db) q.
End GroupListView.

Module GroupDetailView.
Definition queryset (db : DB) : list Group.t := groups db.

(** Modelled from the spec: the view names no permission class and the
    project settings are not among the source files; section 4.3 has the
    route open to any caller. *)
Definition permission_classes := permissions.AllowAny.

Definition retrieve (db : DB) (pk : Z) : Py Response :=
  instance <- get_object_or_404 "Group" (fun g => Group.pk g =? pk)
                (queryset db) ;;
  ret (mkResponse (OneGroup instance) status.HTTP_200_OK).
End GroupDetailView.

Module FollowView.

Definition permission_classes := permissions.IsAuthenticated.

(** [following__username__icontains=search]: the row's target, joined
    from the user table, has a username that contains [search] when both
    are lower-cased. *)
Definition following__username__icontains (db : DB) (search : string)
    (f : Follow.t) : bool :=
  existsb
    (fun t => (User.pk t =? Follow.following f)
              && PyStr.contains (PyStr.lower (User.username t))
                   (PyStr.lower search))
    (users db).

Definition get_queryset (db : DB) (request_user : User.t) (q : QueryDict)
  : list Follow.t :=
  let queryset :=
    qs_filter (fun f => Follow.user f =? User.pk request_user) (follows db) in
  match qd_get q "search" with
  | Some search =>
      if PyStr.truthy search
      then qs_filter (following__username__icontains db search) queryset
      else queryset
  | None => queryset
  end.

Definition get (db : DB) (request_user : User.t) (q : QueryDict)
  : Py Response :=
  ret (mkResponse (Follows (get_queryset db request_user q))
         status.HTTP_200_OK).

Definition post (db : DB) (request_user : User.t)
    (request_data : FollowSerializer.initial_data) : Py (Response * DB) :=
  serializer <- FollowSerializer.is_valid db request_data ;;
  following_username <-
    match FollowSerializer.v_following serializer with
    | Some value => ret value
    | None => raise (KeyError "following")
    end ;;
  match qs_get "User"
          (fun u => String.eqb (User.username u) following_username)
          (users db) with
  | inl e =>
      if is_DoesNotExist "User" e
      then ret (mkResponse
                  (Detail ("User '" ++ following_username
                           ++ "' does not exist."))
                  status.HTTP_400_BAD_REQUEST, db)
      else raise e
  | inr following_user =>
      if User.eqb request_user following_user
      then ret (mkResponse (Detail "You cannot follow yourself.")
                  status.HTTP_400_BAD_REQUEST, db)
      else if qs_exists
                (qs_filter
                   (fun f => (Follow.user f =? User.pk request_user)
                             && (Follow.following f =? User.pk following_user))
                   (follows db))
      then ret (mkResponse (Detail "You are already following this user.")
                  status.HTTP_400_BAD_REQUEST, db)
      else
        let r := insert_follow db (User.pk request_user)
                   (User.pk following_user) in
        ret (mkResponse (OneFollow (fst r)) status.HTTP_201_CREATED, snd r)
  end.

End FollowView.

(** ** urls.py *)

(** One constructor per route and method of [urlpatterns]. The [jwt/] route
    includes URLs of the framework and leads to no view of this file. *)
Inductive Request : Type :=
| post_list (q : QueryDict)
| post_create (body : PostSerializer.initial_data)
| post_detail (pk : Z)
| post_update (partial : bool) (pk : Z) (body : PostSerializer.initial_data)
| post_destroy (pk : Z)
| comment_list (post_id : Z) (q : QueryDict)
| comment_create (post_id : Z) (body : CommentSerializer.initial_data)
| comment_detail (post_id pk : Z)
| comment_update (partial : bool) (post_id pk : Z)
    (body : CommentSerializer.initial_data)
| comment_destroy (post_id pk : Z)
| group_list (q : QueryDict)
| group_detail (pk : Z)
| follow_list (q : QueryDict)
| follow_create (body : FollowSerializer.initial_data).

Definition method_of (r : Request) : Method :=
  match r with
  | post_list _ | post_detail _ | comment_list _ _ | comment_detail _ _
  | group_list _ | group_detail _ | follow_list _ => GET
  | post_create _ | comment_create _ _ | follow_create _ => POST
  | post_update partial _ _ | comment_update partial _ _ _ =>
      if partial then PATCH else PUT
  | post_destroy _ | comment_destroy _ _ => DELETE
  end.

(** The permission class of the view a request is routed to. *)
Definition permission_classes (r : Request)
  : Method -> option User.t -> bool :=
  match r with
  | post_list _ | post_create _ => PostListCreateView.permission_classes
  | post_detail _ | post_update _ _ _ | post_destroy _ =>
      PostRetrieveUpdateDestroyView.permission_classes
  | comment_list _ _ | comment_create _ _ =>
      CommentListCreateView.permission_classes
  | comment_detail _ _ | comment_update _ _ _ _ | comment_destroy _ _ =>
      CommentRetrieveUpdateDestroyView.permission_classes
  | group_list _ => GroupListView.permission_classes
  | group_detail _ => GroupDetailView.permission_classes
  | follow_list _ | follow_create _ => FollowView.permission_classes
  end.

Definition read_only (db : DB) (r : Py Response) : Py (Response * DB) :=
  resp <- r ;; ret (resp, db).

Definition handler (db : DB) (user : option User.t) (r : Request)
  : Py (Response * DB) :=
  match r with
  | post_list q => read_only db (PostListCreateView.list db q)
  | post_create body =>
      u <- request_user user ;; PostListCreateView.create db u body
  | post_detail pk => read_only db (PostRetrieveUpdateDestroyView.retrieve db pk)
  | post_update partial pk body =>
      u <- request_user user ;;
      PostRetrieveUpdateDestroyView.update db u partial pk body
  | post_destroy pk =>
      u <- request_user user ;; PostRetrieveUpdateDestroyView.destroy db u pk
  | comment_list post_id q =>
      read_only db (CommentListCreateView.list db post_id q)
  | comment_create post_id body =>
      u <- request_user user ;; CommentListCreateView.create db u post_id body
  | comment_detail post_id pk =>
      read_only db (CommentRetrieveUpdateDestroyView.retrieve db post_id pk)
  | comment_update partial post_id pk body =>
      u <- request_user user ;;
      CommentRetrieveUpdateDestroyView.update db u partial post_id pk body
  | comment_destroy post_id pk =>
      u <- request_user user ;;
      CommentRetrieveUpdateDestroyView.destroy db u post_id pk
  | group_list q => read_only db (GroupListView.list db q)
  | group_detail pk => read_only db (GroupDetailView.retrieve db pk)
  | follow_list q => u <- request_user user ;; read_only db (FollowView.get db u q)
  | follow_create body => u <- request_user user ;; FollowView.post db u body
  end.

(** [APIView.dispatch]: permissions, then the handler; an exception turns
    into its response and leaves the store as it was. *)
Definition dispatch (db : DB) (user : option User.t) (r : Request)
  : Response * DB :=
  match (_ <- check_permissions (permission_classes r) (method_of r) user ;;
         handler db user r) with
  | inr result => result
  | inl e => (exception_handler e, db)
  end.

(** A sequence of requests, each with its caller, served one after the
    other. *)
Fixpoint serve (db : DB) (calls : list (option User.t * Request)) : DB :=
  match calls with
  | [] => db
  | (user, r) :: calls' => serve (snd (dispatch db user r)) calls'
  end.

(** ** Well-formed stores *)

(** A username the serializer's [CharField] hands on as it is: not blank,
    no white space around it, no NUL. Django's username validator admits
    letters, digits and [@ . + - _] only. *)
Definition valid_username (s : string) : Prop :=
  fields.CharField false (Value s) = Valid s.

(** [pk] is the primary key of a row of the user table. *)
Definition is_user (db : DB) (pk : Z) : Prop :=
  exists t, In t (users db) /\ User.pk t = pk.

(** What the database guarantees of the tables: primary keys and usernames
    are unique; the keys of groups are positive, as automatic keys are;
    the keys of the tables this API inserts into are below the table's
    counter; the target of a follow row is a user. *)
Record wf_db (db : DB) : Prop := mk_wf {
  wf_user_pk : NoDup (map User.pk (users db));
  wf_username : NoDup (map User.username (users db));
  wf_username_valid :
    Forall (fun u => valid_username (User.username u)) (users db);
  wf_group_pk : NoDup (map Group.pk (groups db));
  wf_group_pos : Forall (fun g => 0 < Group.pk g) (groups db);
  wf_post_pk : NoDup (map Post.pk (posts db));
  wf_post_seq : Forall (fun p => Post.pk p < post_seq db) (posts db);
  wf_comment_pk : NoDup (map Comment.pk (comments db));
  wf_comment_seq :
    Forall (fun c => Comment.pk c < comment_seq db) (comments db);
  wf_follow_pk : NoDup (map Follow.pk (follows db));
  wf_follow_seq : Forall (fun f => Follow.pk f < follow_seq db) (follows db);
  wf_follow_target :
    Forall (fun f => is_user db (Follow.following f)) (follows db)
}.

(** The rows of the follow table for one (follower, target) pair. *)
Definition edges (db : DB) (user following : Z) : list Follow.t :=
  filter (fun f => (Follow.user f =? user) && (Follow.following f =? following))
    (follows db).

(** At most one row per (follower, target) pair. *)
Definition follow_unique (db : DB) : Prop :=
  NoDup (map (fun f => (Follow.user f, Follow.following f)) (follows db)).

(** What a request may do to the store. *)
Inductive effect (db : DB) : DB -> Prop :=
| eff_none : effect db db
| eff_insert_post text author image group :
    effect db (snd (insert_post db text author image group))
| eff_save_post instance : effect db (save_post db instance)
| eff_delete_post instance : effect db (delete_post db instance)
| eff_insert_comment text author post :
    effect db (snd (insert_comment db text author post))
| eff_save_comment instance : effect db (save_comment db instance)
| eff_delete_comment instance : effect db (delete_comment db instance)
| eff_insert_follow user following :
    edges db user following = [] -> is_user db following ->
    effect db (snd (insert_follow db user following)).

(** [l1] is [l2] with some rows left out, the order kept. *)
Inductive subseq {A : Type} : list A -> list A -> Prop :=
| subseq_nil : subseq [] []
| subseq_skip x l1 l2 : subseq l1 l2 -> subseq l1 (x :: l2)
| subseq_keep x l1 l2 : subseq l1 l2 -> subseq (x :: l1) (x :: l2).

(** [hay] contains [needle] when letter case is ignored. *)
Definition icontains (hay needle : string) : Prop :=
  exists before after,
    PyStr.lower hay = before ++ PyStr.lower needle ++ after.

(** The ordered checks on a follow request, in the words of section 4.4 of
    the spec: the target exists, the target is not the caller, the edge is
    new. [first_failure] is the first check that fails, if any. *)
Inductive follow_check : Type :=
| target_exists
| not_self
| not_duplicate.

Definition find_user (db : DB) (name : string) : option User.t :=
  find (fun t => String.eqb (User.username t) name) (users db).

Definition first_failure (db : DB) (caller : User.t) (name : string)
  : option follow_check :=
  match find_user db name with
  | None => Some target_exists
  | Some target =>
      if User.pk caller =? User.pk target then Some not_self
      else
        match edges db (User.pk caller) (User.pk target) with
        | [] => None
        | _ :: _ => Some not_duplicate
        end
  end.

(** The response the code gives to each failed check. *)
Definition follow_error (name : string) (c : follow_check) : Response :=
  match c with
  | target_exists =>
      mkResponse
        (Errors [("following",
                  "User with username " ++ name ++ " does not exist.")])
        status.HTTP_400_BAD_REQUEST
  | not_self =>
      mkResponse (Detail "You cannot follow yourself.")
        status.HTTP_400_BAD_REQUEST
  | not_duplicate =>
      mkResponse (Detail "You are already following this user.")
        status.HTTP_400_BAD_REQUEST
  end.

(** Page [n], counted from 1, of [rows] cut into pages of [size] rows. *)
Definition chunk {A} (rows : list A) (size n : Z) : list A :=
  firstn (Z.to_nat size) (skipn (Z.to_nat ((n - 1) * size)) rows).


Definition group_exists (db : DB) (pk : Z) : bool :=
  existsb (fun g => Group.pk g =? pk) (groups db).

(** A store and two callers for the examples. *)
Module Example.
Definition alice : User.t := User.mk 1 "alice".
Definition bob : User.t := User.mk 2 "bob".
Definition news : Group.t := Group.mk 3 "News" "news" "Daily news".
Definition first_post : Post.t := Post.mk 1 "hello" 1 None (Some 3).
Definition first_comment : Comment.t := Comment.mk 1 "nice" 2 1.

Definition db : DB :=
  mkDB [alice; bob] [news] [first_post] [first_comment] [] 2 2 1.

(** The same store once alice and bob follow each other. *)
Definition db_follows : DB :=
  mkDB [alice; bob] [news] [first_post] [first_comment]
    [Follow.mk 1 1 2; Follow.mk 2 2 1] 2 2 3.
End Example.

(** What a request of the authenticated caller [u] may do to the store,
    with what the views have checked before they write: a new row carries
    the caller; a row is overwritten or deleted only by its author, and
    overwriting keeps key, author and parent; a new edge leads from the
    caller to another, existing user and is the first for its pair. *)
Inductive writes (u : User.t) (db : DB) : DB -> Prop :=
| w_none : writes u db db
| w_insert_post text image group :
    writes u db (snd (insert_post db text (User.pk u) image group))
| w_save_post old new :
    In old (posts db) -> Post.pk new = Post.pk old ->
    Post.author new = Post.author old -> Post.author old = User.pk u ->
    writes u db (save_post db new)
| w_delete_post old :
    In old (posts db) -> Post.author old = User.pk u ->
    writes u db (delete_post db old)
| w_insert_comment text post :
    In post (posts db) ->
    writes u db (snd (insert_comment db text (User.pk u) (Post.pk post)))
| w_save_comment old new :
    In old (comments db) -> Comment.pk new = Comment.pk old ->
    Comment.author new = Comment.author old ->
    Comment.post new = Comment.post old ->
    Comment.author old = User.pk u ->
    writes u db (save_comment db new)
| w_delete_comment old :
    In old (comments db) -> Comment.author old = User.pk u ->
    writes u db (delete_comment db old)
| w_insert_follow target :
    In target (users db) -> User.pk target <> User.pk u ->
    edges db (User.pk u) (User.pk target) = [] ->
    writes u db (snd (insert_follow db (User.pk u) (User.pk target))).

(** No row of the follow table leads from a user to themselves. *)
Definition no_self_follow (db : DB) : Prop :=
  Forall (fun f => Follow.user f <> Follow.following f) (follows db).

(** The page numbers [1 .. n]. *)
Definition page_numbers (n : Z) : list Z :=
  map Z.of_nat (seq 1 (Z.to_nat n)).

(** The callers of a sequence of requests are all other than [pk]. *)
Definition callers_other_than (pk : Z)
    (calls : list (option User.t * Request)) : Prop :=
  Forall (fun call => match fst call with
                      | Some u => User.pk u <> pk
                      | None => True
                      end) calls.


(** * Properties *)

(** ** The model at work *)

Example int_of_padded_string : PyStr.int " -1_000 " = Some (-1000).
Proof. reflexivity. Qed.

Example int_of_text : PyStr.int "ten" = None.
Proof. reflexivity. Qed.

Example strip_keeps_inner_space : PyStr.strip "  a b  " = "a b".
Proof. reflexivity. Qed.

Example third_page_of_25 :
  PageNumberPagination.Paginator_page
    (map Z.of_nat (seq 1 25)) 10 3 = [21; 22; 23; 24; 25].
Proof. reflexivity. Qed.

Example offset_is_a_page_number :
  fst (dispatch Example.db None (group_list [("offset", "0")]))
  = mkResponse (Detail "Invalid page.") status.HTTP_404_NOT_FOUND.
Proof. reflexivity. Qed.

Example limit_one_gives_envelope :
  fst (dispatch Example.db None (group_list [("limit", "1")]))
  = mkResponse (Envelope 1 None None (Groups [Example.news]))
      status.HTTP_200_OK.
Proof. reflexivity. Qed.

Example follow_unknown_user :
  fst (dispatch Example.db (Some Example.alice)
         (follow_create (FollowSerializer.mk (Value "carol") Absent)))
  = mkResponse
      (Errors [("following", "User with username carol does not exist.")])
      status.HTTP_400_BAD_REQUEST.
Proof. reflexivity. Qed.

Example post_unknown_group :
  fst (dispatch Example.db (Some Example.alice)
         (post_create (PostSerializer.mk (Value "hello") Absent (Value 999)
                         Absent)))
  = mkResponse
      (Errors [("group",
                "Invalid pk " ++ dquote ++ "999" ++ dquote
                ++ " - object does not exist.")])
      status.HTTP_400_BAD_REQUEST.
Proof. reflexivity. Qed.

(** ** Lists and QuerySets *)

Section Lists.
Context {A : Type}.

Lemma filter_none (cond : A -> bool) (l : list A) :
  (forall y, In y l -> cond y = false) -> filter cond l = [].
Proof.
  induction l as [|a l IH]; intros H; simpl; [reflexivity|].
  rewrite (H a (or_introl eq_refl)). apply IH.
  intros y Hy. apply H. now right.
Qed.

Lemma filter_one {K : Type} (key : A -> K) (cond : A -> bool)
    (l : list A) (x : A) :
  NoDup (map key l) -> In x l ->
  (forall y, In y l -> cond y = true <-> key y = key x) ->
  filter cond l = [x].
Proof.
  induction l as [|a l IH]; intros Hnd Hin Hc; [destruct Hin|].
  simpl in Hnd. inversion Hnd as [|k ks Hnotin Hnd']; subst.
  destruct Hin as [->|Hin]; simpl.
  - assert (Hx : cond x = true) by (apply Hc; [now left | reflexivity]).
    rewrite Hx. f_equal. apply filter_none. intros y Hy.
    destruct (cond y) eqn:E; [|reflexivity].
    exfalso. apply Hnotin. apply Hc in E; [|now right].
    rewrite <- E. now apply in_map.
  - destruct (cond a) eqn:E.
    + exfalso. apply Hnotin. apply Hc in E; [|now left].
      rewrite E. now apply in_map.
    + apply IH; auto. intros y Hy. apply Hc. now right.
Qed.

Lemma subseq_filter (cond : A -> bool) (l : list A) :
  subseq (filter cond l) l.
Proof.
  induction l as [|a l IH]; simpl; [constructor|].
  destruct (cond a); now constructor.
Qed.


Lemma NoDup_map_filter {K : Type} (key : A -> K) (cond : A -> bool)
    (l : list A) :
  NoDup (map key l) -> NoDup (map key (filter cond l)).
Proof.
  induction l as [|a l IH]; simpl; intros Hnd; [constructor|].
  inversion Hnd as [|k ks Hnotin Hnd']; subst.
  destruct (cond a); simpl; auto.
  constructor; auto. intros Hin. apply Hnotin.
  apply in_map_iff in Hin. destruct Hin as (y & Hk & Hy).
  apply filter_In in Hy. rewrite <- Hk. apply in_map. tauto.
Qed.

Lemma NoDup_map_snoc {K : Type} (key : A -> K) (l : list A) (x : A) :
  NoDup (map key l) -> (forall y, In y l -> key y <> key x) ->
  NoDup (map key (l ++ [x])).
Proof.
  induction l as [|a l IH]; simpl; intros Hnd Hfresh.
  - constructor; [intros []|constructor].
  - inversion Hnd as [|k ks Hnotin Hnd']; subst. constructor.
    + rewrite map_app, in_app_iff. intros [Hin|[Hin|[]]]; [tauto|].
      apply (Hfresh a); auto.
    + apply IH; auto.
Qed.

Lemma qs_get_one {K : Type} (key : A -> K) (model : string)
    (cond : A -> bool) (l : list A) (x : A) :
  NoDup (map key l) -> In x l ->
  (forall y, In y l -> cond y = true <-> key y = key x) ->
  qs_get model cond l = ret x.
Proof.
  intros Hnd Hin Hc. unfold qs_get, qs_filter.
  now rewrite (filter_one key cond l x Hnd Hin Hc).
Qed.

Lemma qs_get_ok (model : string) (cond : A -> bool) (l : list A) (x : A) :
  qs_get model cond l = inr x -> In x l /\ cond x = true.
Proof.
  unfold qs_get, qs_filter. intros H.
  destruct (filter cond l) as [|y [|z l']] eqn:E; try discriminate.
  inversion H; subst. apply filter_In. rewrite E. now left.
Qed.

Lemma qs_get_none (model : string) (cond : A -> bool) (l : list A) :
  (forall y, In y l -> cond y = false) ->
  qs_get model cond l = raise (DoesNotExist model).
Proof.
  intros H. unfold qs_get, qs_filter. now rewrite filter_none.
Qed.
End Lists.

(** ** What a request does to the store *)

Ltac break_match :=
  match goal with
  | |- context [match ?x with _ => _ end] => destruct x eqn:?
  | H : context [match ?x with _ => _ end] |- _ => destruct x eqn:?
  end.

Ltac py_unfold :=
  unfold read_only, request_user, check_permissions, get_object_or_404,
    try_except, bind, ret, raise in *.

Ltac py_inv :=
  repeat match goal with
         | H : inr _ = inr _ |- _ => inversion H; subst; clear H
         | H : inl _ = inr _ |- _ => discriminate H
         | H : inr _ = inl _ |- _ => discriminate H
         | H : (_, _) = (_, _) |- _ => inversion H; subst; clear H
         end.

Ltac view_effect :=
  intros; py_unfold; repeat (break_match; py_inv; try discriminate);
  py_inv; simpl; try (constructor; fail).

Lemma qs_exists_false {A} (l : list A) : qs_exists l = false -> l = [].
Proof. destruct l; [reflexivity | discriminate]. Qed.

Lemma post_create_effect db u d resp db' :
  PostListCreateView.create db u d = inr (resp, db') -> effect db db'.
Proof.
  unfold PostListCreateView.create, PostListCreateView.perform_create,
    PostSerializer.save_create.
  view_effect.
Qed.

Lemma post_update_effect db u partial pk d resp db' :
  PostRetrieveUpdateDestroyView.update db u partial pk d = inr (resp, db') ->
  effect db db'.
Proof.
  unfold PostRetrieveUpdateDestroyView.update,
    PostRetrieveUpdateDestroyView.super_update, PostSerializer.save_update.
  view_effect.
Qed.

Lemma post_destroy_effect db u pk resp db' :
  PostRetrieveUpdateDestroyView.destroy db u pk = inr (resp, db') ->
  effect db db'.
Proof.
  unfold PostRetrieveUpdateDestroyView.destroy,
    PostRetrieveUpdateDestroyView.super_destroy.
  view_effect.
Qed.

Lemma comment_create_effect db u post_id d resp db' :
  CommentListCreateView.create db u post_id d = inr (resp, db') ->
  effect db db'.
Proof.
  unfold CommentListCreateView.create, CommentListCreateView.perform_create,
    CommentSerializer.save_create.
  view_effect.
Qed.

Lemma comment_update_effect db u partial post_id pk d resp db' :
  CommentRetrieveUpdateDestroyView.update db u partial post_id pk d
  = inr (resp, db') ->
  effect db db'.
Proof.
  unfold CommentRetrieveUpdateDestroyView.update,
    CommentRetrieveUpdateDestroyView.super_update,
    CommentSerializer.save_update.
  view_effect.
Qed.

Lemma comment_destroy_effect db u post_id pk resp db' :
  CommentRetrieveUpdateDestroyView.destroy db u post_id pk = inr (resp, db') ->
  effect db db'.
Proof.
  unfold CommentRetrieveUpdateDestroyView.destroy,
    CommentRetrieveUpdateDestroyView.super_destroy.
  view_effect.
Qed.

Lemma follow_post_effect db u d resp db' :
  FollowView.post db u d = inr (resp, db') -> effect db db'.
Proof.
  unfold FollowView.post.
  view_effect.
  apply eff_insert_follow.
  - unfold edges.
    match goal with
    | H : qs_exists _ = false |- _ => apply qs_exists_false in H; exact H
    end.
  - match goal with
    | H : qs_get _ _ _ = inr ?t |- _ =>
        apply qs_get_ok in H; exists t; tauto
    end.
Qed.

Lemma dispatch_effect db user r : effect db (snd (dispatch db user r)).
Proof.
  unfold dispatch, bind.
  destruct (check_permissions _ _ _); [constructor|].
  destruct (handler db user r) as [e|[resp db']] eqn:H; [constructor|].
  simpl. destruct r; simpl in H; py_unfold;
    repeat (break_match; py_inv; try discriminate); py_inv;
    try constructor;
    eauto using post_create_effect, post_update_effect, post_destroy_effect,
      comment_create_effect, comment_update_effect, comment_destroy_effect,
      follow_post_effect.
Qed.

(** A request the permission class of its view refuses is answered 401
    and changes nothing; for a caller without a token these are the
    requests that write, and both requests of the follow route. *)
Lemma dispatch_refused db user r :
  permission_classes r (method_of r) user = false ->
  dispatch db user r
  = (mkResponse (Detail "Authentication credentials were not provided.")
       status.HTTP_401_UNAUTHORIZED, db).
Proof.
  intros H. unfold dispatch, check_permissions. now rewrite H.
Qed.

Section Keys.
Context {A : Type} (key : A -> Z).

Lemma map_key_overwrite instance l :
  map key (overwrite key instance l) = map key l.
Proof.
  unfold overwrite. rewrite map_map. apply map_ext. intros x.
  destruct (Z.eqb_spec (key x) (key instance)); congruence.
Qed.

Lemma Forall_key_overwrite (bound : Z) instance l :
  Forall (fun x => key x < bound) l ->
  Forall (fun x => key x < bound) (overwrite key instance l).
Proof.
  unfold overwrite. rewrite !Forall_forall. intros H y Hy.
  apply in_map_iff in Hy. destruct Hy as (x & Hx & Hin).
  destruct (Z.eqb_spec (key x) (key instance)) as [E|E]; subst;
    [rewrite <- E|]; auto.
Qed.

Lemma NoDup_key_snoc (bound : Z) (x : A) l :
  NoDup (map key l) -> Forall (fun y => key y < bound) l -> key x = bound ->
  NoDup (map key (l ++ [x])).
Proof.
  intros Hnd Hb Hx. apply NoDup_map_snoc; auto.
  rewrite Forall_forall in Hb. intros y Hy. specialize (Hb y Hy). lia.
Qed.

Lemma Forall_key_snoc (bound : Z) (x : A) l :
  Forall (fun y => key y < bound) l -> key x = bound ->
  Forall (fun y => key y < bound + 1) (l ++ [x]).
Proof.
  intros Hb Hx. apply Forall_app. split.
  - eapply Forall_impl; [|exact Hb]. simpl. intros. lia.
  - constructor; [lia|constructor].
Qed.

Lemma Forall_filter (P : A -> Prop) (cond : A -> bool) l :
  Forall P l -> Forall P (filter cond l).
Proof.
  rewrite !Forall_forall. intros H y Hy. apply filter_In in Hy. apply H, Hy.
Qed.
End Keys.

Lemma effect_users db db' : effect db db' -> users db' = users db.
Proof. destruct 1; reflexivity. Qed.

Lemma effect_groups db db' : effect db db' -> groups db' = groups db.
Proof. destruct 1; reflexivity. Qed.

(** Every request leaves a well-formed store well-formed. *)
Lemma effect_wf db db' : wf_db db -> effect db db' -> wf_db db'.
Proof.
  intros [] He. destruct He; constructor; simpl; auto;
    try (rewrite map_key_overwrite; assumption);
    try (apply Forall_key_overwrite; assumption);
    try (apply NoDup_map_filter; assumption);
    try (apply Forall_filter; assumption);
    try (eapply NoDup_key_snoc; eauto; reflexivity);
    try (apply Forall_key_snoc; auto; reflexivity);
    try (unfold is_user in *; simpl; assumption).
  unfold is_user in *; simpl. apply Forall_app. split; [assumption|].
  constructor; [assumption | constructor].
Qed.

Lemma dispatch_wf db user r : wf_db db -> wf_db (snd (dispatch db user r)).
Proof. intros H. eapply effect_wf; [exact H | apply dispatch_effect]. Qed.

Lemma serve_wf calls : forall db, wf_db db -> wf_db (serve db calls).
Proof.
  induction calls as [|[user r] calls IH]; simpl; intros db H; [exact H|].
  apply IH, dispatch_wf, H.
Qed.

Lemma serve_users calls : forall db, users (serve db calls) = users db.
Proof.
  induction calls as [|[user r] calls IH]; simpl; intros db; [reflexivity|].
  rewrite IH. apply effect_users, dispatch_effect.
Qed.

Lemma edges_snoc db user following a b :
  edges (snd (insert_follow db user following)) a b
  = (edges db a b
     ++ (if (user =? a) && (following =? b)
         then [Follow.mk (follow_seq db) user following] else []))%list.
Proof. unfold edges. simpl. now rewrite filter_app. Qed.

Lemma effect_edges db db' a b :
  effect db db' ->
  edges db' a b = edges db a b
  \/ edges db a b = [] /\ edges db' a b = [Follow.mk (follow_seq db) a b].
Proof.
  destruct 1; auto.
  rewrite edges_snoc.
  destruct (Z.eqb_spec user a), (Z.eqb_spec following b); simpl; subst;
    rewrite ?app_nil_r; auto.
  right. rewrite H. auto.
Qed.

Lemma effect_is_user db db' pk : effect db db' -> is_user db pk -> is_user db' pk.
Proof. intros He. unfold is_user. now rewrite (effect_users db db' He). Qed.

Lemma effect_edges_once db db' a b :
  effect db db' ->
  List.length (edges db a b) = 1%nat -> List.length (edges db' a b) = 1%nat.
Proof.
  intros He H. destruct (effect_edges db db' a b He) as [->|[E _]]; auto.
  rewrite E in H. discriminate.
Qed.

Lemma serve_edges_once calls : forall db a b,
  List.length (edges db a b) = 1%nat ->
  List.length (edges (serve db calls) a b) = 1%nat.
Proof.
  induction calls as [|[user r] calls IH]; simpl; intros db a b H; [exact H|].
  apply IH. eapply effect_edges_once; [apply dispatch_effect | exact H].
Qed.

Lemma effect_follow_unique db db' :
  follow_unique db -> effect db db' -> follow_unique db'.
Proof.
  unfold follow_unique. intros Hu He. destruct He; simpl; auto.
  apply NoDup_map_snoc; auto. simpl. intros y Hy E.
  assert (Hin : In y (edges db user following)).
  { unfold edges. apply filter_In. split; [exact Hy|].
    inversion E. now rewrite !Z.eqb_refl. }
  rewrite H in Hin. destruct Hin.
Qed.

(** ** The example store *)

Lemma Example_wf : wf_db Example.db.
Proof.
  constructor; simpl;
    repeat (constructor; simpl; try lia; try reflexivity;
            try (intros H; intuition discriminate)).
Qed.

(** ** Follow requests *)

Lemma NoDup_key_inj {A K} (key : A -> K) (l : list A) (x y : A) :
  NoDup (map key l) -> In x l -> In y l -> key x = key y -> x = y.
Proof.
  induction l as [|a l IH]; simpl; intros Hnd Hx Hy E; [destruct Hx|].
  inversion Hnd as [|k ks Hnotin Hnd']; subst.
  destruct Hx as [->|Hx], Hy as [->|Hy]; auto.
  - exfalso. apply Hnotin. rewrite E. now apply in_map.
  - exfalso. apply Hnotin. rewrite <- E. now apply in_map.
Qed.

Lemma find_user_some db name t :
  find_user db name = Some t -> In t (users db) /\ User.username t = name.
Proof.
  unfold find_user. intros H. apply find_some in H.
  destruct H as [Hin E]. apply String.eqb_eq in E. auto.
Qed.

Lemma find_user_get db name t :
  wf_db db -> find_user db name = Some t ->
  qs_get "User" (fun u => String.eqb (User.username u) name) (users db)
  = ret t.
Proof.
  intros Hwf H. apply find_user_some in H. destruct H as [Hin E].
  apply (qs_get_one User.username); auto using wf_username.
  intros y _. rewrite String.eqb_eq. now rewrite E.
Qed.

Lemma find_user_missing db name :
  find_user db name = None ->
  qs_get "User" (fun u => String.eqb (User.username u) name) (users db)
  = raise (DoesNotExist "User").
Proof.
  unfold find_user. intros H. apply qs_get_none. intros y Hy.
  exact (find_none _ _ H y Hy).
Qed.

Lemma find_user_self db u :
  wf_db db -> In u (users db) -> find_user db (User.username u) = Some u.
Proof.
  intros Hwf Hin. destruct (find_user db (User.username u)) as [t|] eqn:E.
  - apply find_user_some in E. destruct E as [Ht E]. f_equal.
    eapply NoDup_key_inj; eauto using wf_username.
  - unfold find_user in E.
    pose proof (find_none _ _ E u Hin) as H. simpl in H.
    now rewrite String.eqb_refl in H.
Qed.

(** The response to a follow request whose [following] passes the field's
    own validation, by the first check that fails. *)
Lemma follow_create_dispatch db u d name :
  wf_db db ->
  fields.CharField false (FollowSerializer.following d) = Valid name ->
  dispatch db (Some u) (follow_create d)
  = match first_failure db u name, find_user db name with
    | Some c, _ => (follow_error name c, db)
    | None, Some target =>
        (mkResponse
           (OneFollow (Follow.mk (follow_seq db) (User.pk u) (User.pk target)))
           status.HTTP_201_CREATED,
         snd (insert_follow db (User.pk u) (User.pk target)))
    | None, None => (follow_error name target_exists, db)
    end.
Proof.
  intros Hwf Hf.
  unfold dispatch, handler, FollowView.post, FollowSerializer.is_valid,
    FollowSerializer.validate_following, first_failure.
  simpl. rewrite Hf.
  destruct (find_user db name) as [target|] eqn:E.
  - rewrite (find_user_get db name target Hwf E). simpl.
    rewrite (find_user_get db name target Hwf E).
    unfold User.eqb, edges, qs_filter, ret. simpl.
    destruct (User.pk u =? User.pk target); [reflexivity|].
    destruct (filter _ (follows db)); reflexivity.
  - rewrite (find_user_missing db name E). reflexivity.
Qed.

Lemma follow_create_field_error db u d msg :
  fields.CharField false (FollowSerializer.following d) = Failed msg ->
  dispatch db (Some u) (follow_create d)
  = (mkResponse (Errors [("following", msg)]) status.HTTP_400_BAD_REQUEST, db).
Proof.
  intros Hf.
  unfold dispatch, handler, FollowView.post, FollowSerializer.is_valid.
  simpl. rewrite Hf. reflexivity.
Qed.

Lemma CharField_required d : fields.CharField false d <> Skipped.
Proof.
  destruct d; simpl; try discriminate.
  repeat break_match; discriminate.
Qed.



(** C3. An authenticated user who names themselves in a follow request is
    answered 400 "You cannot follow yourself." and the store is left as it
    was. The caller is a row of the user table, so the name always resolves:
    the check for an unknown target cannot come first. *)
Theorem follow_yourself_rejected (db : DB) (u : User.t) (usr : field string) :
  wf_db db -> In u (users db) ->
  dispatch db (Some u)
    (follow_create (FollowSerializer.mk (Value (User.username u)) usr))
  = (mkResponse (Detail "You cannot follow yourself.")
       status.HTTP_400_BAD_REQUEST, db).
Proof.
  intros Hwf Hin.
  assert (Hv : fields.CharField false (Value (User.username u))
               = Valid (User.username u)).
  { pose proof (wf_username_valid db Hwf) as H.
    rewrite Forall_forall in H. exact (H u Hin). }
  rewrite (follow_create_dispatch db u
             (FollowSerializer.mk (Value (User.username u)) usr)
             (User.username u) Hwf Hv).
  unfold first_failure. rewrite (find_user_self db u Hwf Hin).
  now rewrite Z.eqb_refl.
Qed.

Lemma follow_yourself_rejected_witness :
  dispatch Example.db (Some Example.alice)
    (follow_create (FollowSerializer.mk (Value "alice") Absent))
  = (mkResponse (Detail "You cannot follow yourself.")
       status.HTTP_400_BAD_REQUEST, Example.db).
Proof.
  apply (follow_yourself_rejected Example.db Example.alice Absent Example_wf).
  simpl. auto.
Defined.

Lemma first_failure_none db u name :
  first_failure db u name = None ->
  exists target,
    find_user db name = Some target
    /\ (User.pk u =? User.pk target) = false
    /\ edges db (User.pk u) (User.pk target) = [].
Proof.
  unfold first_failure. destruct (find_user db name) as [target|]; [|discriminate].
  destruct (User.pk u =? User.pk target) eqn:Hne; [discriminate|].
  destruct (edges db (User.pk u) (User.pk target)) eqn:He; [|discriminate].
  intros _. now exists target.
Qed.

Lemma follow_created db u d resp db1 :
  wf_db db ->
  dispatch db (Some u) (follow_create d) = (resp, db1) ->
  status_code resp = status.HTTP_201_CREATED ->
  exists name target,
    fields.CharField false (FollowSerializer.following d) = Valid name
    /\ find_user db name = Some target
    /\ (User.pk u =? User.pk target) = false
    /\ edges db (User.pk u) (User.pk target) = []
    /\ resp = mkResponse
                (OneFollow (Follow.mk (follow_seq db) (User.pk u)
                              (User.pk target)))
                status.HTTP_201_CREATED
    /\ db1 = snd (insert_follow db (User.pk u) (User.pk target)).
Proof.
  intros Hwf Hd Hs.
  destruct (fields.CharField false (FollowSerializer.following d))
    as [|msg|name] eqn:Hf.
  - now apply CharField_required in Hf.
  - rewrite (follow_create_field_error db u d msg Hf) in Hd.
    inversion Hd; subst. discriminate Hs.
  - rewrite (follow_create_dispatch db u d name Hwf Hf) in Hd.
    destruct (first_failure db u name) as [c|] eqn:Hc.
    + inversion Hd; subst. destruct c; discriminate Hs.
    + destruct (first_failure_none db u name Hc) as (target & Ht & Hne & He).
      rewrite Ht in Hd. inversion Hd; subst.
      exists name, target. auto 10.
Qed.

(** C4. Every request keeps the follow table free of repeated (follower,
    target) pairs. After a follow request of [u] has succeeded, and after
    whatever requests are served next, a request by [u] that names the same
    target is answered 400 and leaves the store as it is, and the table
    holds exactly one row for the pair. *)
Theorem follow_edge_at_most_once :
  (forall db user r,
      follow_unique db -> follow_unique (snd (dispatch db user r)))
  /\ (forall db u d resp db1 calls d',
         wf_db db ->
         dispatch db (Some u) (follow_create d) = (resp, db1) ->
         status_code resp = status.HTTP_201_CREATED ->
         fields.CharField false (FollowSerializer.following d')
         = fields.CharField false (FollowSerializer.following d) ->
         exists target,
           data resp
           = OneFollow (Follow.mk (follow_seq db) (User.pk u) (User.pk target))
           /\ dispatch (serve db1 calls) (Some u) (follow_create d')
              = (mkResponse (Detail "You are already following this user.")
                   status.HTTP_400_BAD_REQUEST, serve db1 calls)
           /\ List.length (edges (serve db1 calls) (User.pk u) (User.pk target))
              = 1%nat).
Proof.
  split.
  { intros db user r H. eapply effect_follow_unique; [exact H|].
    apply dispatch_effect. }
  intros db u d resp db1 calls d' Hwf Hd Hs Hsame.
  pose proof (dispatch_wf db (Some u) (follow_create d) Hwf) as Hwf1.
  rewrite Hd in Hwf1. simpl in Hwf1.
  destruct (follow_created db u d resp db1 Hwf Hd Hs)
    as (name & target & Hf & Ht & Hne & He & -> & ->).
  rewrite Hf in Hsame.
  exists target. split; [reflexivity|].
  set (db1 := snd (insert_follow db (User.pk u) (User.pk target))) in *.
  assert (Hone : List.length (edges (serve db1 calls) (User.pk u) (User.pk target))
                 = 1%nat).
  { apply serve_edges_once. unfold db1. rewrite edges_snoc, He.
    now rewrite !Z.eqb_refl. }
  split; [|exact Hone].
  rewrite (follow_create_dispatch _ u d' name (serve_wf calls db1 Hwf1) Hsame).
  assert (Ht2 : find_user (serve db1 calls) name = Some target).
  { unfold find_user. rewrite serve_users. exact Ht. }
  unfold first_failure. rewrite Ht2, Hne.
  destruct (edges (serve db1 calls) (User.pk u) (User.pk target));
    [discriminate Hone | reflexivity].
Qed.

Lemma follow_edge_at_most_once_witness :
  let db1 := snd (insert_follow Example.db 1 2) in
  let calls :=
    [(Some Example.bob,
      follow_create (FollowSerializer.mk (Value "alice") Absent));
     (None, group_list [])] in
  dispatch (serve db1 calls) (Some Example.alice)
    (follow_create (FollowSerializer.mk (Value " bob") (Value "eve")))
  = (mkResponse (Detail "You are already following this user.")
       status.HTTP_400_BAD_REQUEST, serve db1 calls)
  /\ List.length (edges (serve db1 calls) 1 2) = 1%nat.
Proof.
  intros db1 calls.
  destruct follow_edge_at_most_once as [_ H].
  destruct (H Example.db Example.alice
              (FollowSerializer.mk (Value "bob") Absent)
              (mkResponse (OneFollow (Follow.mk 1 1 2)) status.HTTP_201_CREATED)
              db1 calls
              (FollowSerializer.mk (Value " bob") (Value "eve"))
              Example_wf eq_refl eq_refl eq_refl)
    as (target & Ht & Hd & Hn).
  inversion Ht as [E]. split; [exact Hd|]. rewrite <- E in Hn. exact Hn.
Defined.

(** ** Posts *)

Lemma in_overwrite {A} (key : A -> Z) (instance y : A) (l : list A) :
  In y (overwrite key instance l) -> y = instance \/ In y l.
Proof.
  unfold overwrite. rewrite in_map_iff. intros (x & E & Hin).
  destruct (key x =? key instance); subst; auto.
Qed.

Lemma post_get_object db p :
  wf_db db -> In p (posts db) ->
  PostRetrieveUpdateDestroyView.get_object db (Post.pk p) = ret p.
Proof.
  intros Hwf Hin.
  unfold PostRetrieveUpdateDestroyView.get_object, get_object_or_404,
    PostRetrieveUpdateDestroyView.queryset.
  rewrite (qs_get_one Post.pk "Post" _ (posts db) p);
    auto using wf_post_pk.
  intros y _. apply Z.eqb_eq.
Qed.

Lemma post_super_update_author db p partial d resp db' :
  wf_db db -> In p (posts db) ->
  PostRetrieveUpdateDestroyView.super_update db partial (Post.pk p) d
  = inr (resp, db') ->
  forall p', In p' (posts db') -> Post.pk p' = Post.pk p ->
             Post.author p' = Post.author p.
Proof.
  intros Hwf Hin H p' Hp' Hpk.
  unfold PostRetrieveUpdateDestroyView.super_update in H.
  rewrite (post_get_object db p Hwf Hin) in H. simpl in H.
  unfold bind in H.
  destruct (PostSerializer.is_valid db partial d) as [e|v]; [discriminate|].
  inversion H; subst. simpl in Hp'.
  apply in_overwrite in Hp'. destruct Hp' as [->|Hp']; [reflexivity|].
  f_equal. eapply (NoDup_key_inj Post.pk); eauto using wf_post_pk.
Qed.

(** C5. On an existing post, an update or a delete by an authenticated
    caller other than the author is answered 403 with the message of the
    operation, and the store is left as it was. For the author the view
    does what the generic update and delete do; an update leaves the
    post's author as it is, and a delete removes the post with 204. *)
Theorem post_mutation_owner_only (db : DB) (u : User.t) (p : Post.t)
    (partial : bool) (d : PostSerializer.initial_data) :
  wf_db db -> In p (posts db) ->
  (Post.author p <> User.pk u ->
   dispatch db (Some u) (post_update partial (Post.pk p) d)
   = (mkResponse (Detail "You cannot update another author's post.")
        status.HTTP_403_FORBIDDEN, db)
   /\ dispatch db (Some u) (post_destroy (Post.pk p))
      = (mkResponse (Detail "You cannot delete another author's post.")
           status.HTTP_403_FORBIDDEN, db))
  /\ (Post.author p = User.pk u ->
      PostRetrieveUpdateDestroyView.update db u partial (Post.pk p) d
      = PostRetrieveUpdateDestroyView.super_update db partial (Post.pk p) d
      /\ PostRetrieveUpdateDestroyView.destroy db u (Post.pk p)
         = PostRetrieveUpdateDestroyView.super_destroy db (Post.pk p)
      /\ (forall p',
             In p' (posts (snd (dispatch db (Some u)
                                  (post_update partial (Post.pk p) d)))) ->
             Post.pk p' = Post.pk p -> Post.author p' = Post.author p)
      /\ dispatch db (Some u) (post_destroy (Post.pk p))
         = (mkResponse NoData status.HTTP_204_NO_CONTENT, delete_post db p)).
Proof.
  intros Hwf Hin. split.
  - intros Hne. apply Z.eqb_neq in Hne.
    unfold dispatch, handler, PostRetrieveUpdateDestroyView.update,
      PostRetrieveUpdateDestroyView.destroy.
    destruct partial; simpl;
      rewrite (post_get_object db p Hwf Hin); simpl; now rewrite Hne.
  - intros He. apply Z.eqb_eq in He.
    assert (Hu : PostRetrieveUpdateDestroyView.update db u partial (Post.pk p) d
                 = PostRetrieveUpdateDestroyView.super_update db partial
                     (Post.pk p) d).
    { unfold PostRetrieveUpdateDestroyView.update.
      rewrite (post_get_object db p Hwf Hin). simpl. now rewrite He. }
    assert (Hd : PostRetrieveUpdateDestroyView.destroy db u (Post.pk p)
                 = PostRetrieveUpdateDestroyView.super_destroy db (Post.pk p)).
    { unfold PostRetrieveUpdateDestroyView.destroy.
      rewrite (post_get_object db p Hwf Hin). simpl. now rewrite He. }
    repeat split; auto.
    + intros p'. unfold dispatch, handler.
      replace (check_permissions _ _ _) with (@ret unit tt)
        by (now destruct partial).
      simpl. rewrite Hu.
      destruct (PostRetrieveUpdateDestroyView.super_update db partial
                  (Post.pk p) d) as [e|[resp db']] eqn:Hs; simpl.
      * intros Hp' Hpk. f_equal.
        eapply (NoDup_key_inj Post.pk); eauto using wf_post_pk.
      * eapply post_super_update_author; eauto.
    + unfold dispatch, handler. simpl. rewrite Hd.
      unfold PostRetrieveUpdateDestroyView.super_destroy.
      now rewrite (post_get_object db p Hwf Hin).
Qed.

Lemma post_mutation_owner_only_witness :
  dispatch Example.db (Some Example.bob)
    (post_update true 1 (PostSerializer.mk (Value "mine now") Absent Absent
                           (Value "bob")))
  = (mkResponse (Detail "You cannot update another author's post.")
       status.HTTP_403_FORBIDDEN, Example.db)
  /\ dispatch Example.db (Some Example.alice) (post_destroy 1)
     = (mkResponse NoData status.HTTP_204_NO_CONTENT,
        delete_post Example.db Example.first_post).
Proof.
  split.
  - apply (post_mutation_owner_only Example.db Example.bob Example.first_post
             true _ Example_wf); simpl; [auto | lia].
  - apply (post_mutation_owner_only Example.db Example.alice
             Example.first_post true
             (PostSerializer.mk Absent Absent Absent Absent) Example_wf);
      simpl; [auto | reflexivity].
Defined.

Lemma group_exists_get db g :
  wf_db db -> group_exists db g = true ->
  g <> 0
  /\ exists grp,
      Group.pk grp = g
      /\ qs_get "Group" (fun x => Group.pk x =? g) (groups db) = ret grp.
Proof.
  intros Hwf H. unfold group_exists in H. apply existsb_exists in H.
  destruct H as (grp & Hin & E). apply Z.eqb_eq in E. split.
  - pose proof (wf_group_pos db Hwf) as Hpos. rewrite Forall_forall in Hpos.
    specialize (Hpos grp Hin). lia.
  - exists grp. split; [exact E|].
    apply (qs_get_one Group.pk); auto using wf_group_pk.
    intros y _. rewrite Z.eqb_eq. now rewrite E.
Qed.

Lemma group_missing_get db g :
  group_exists db g = false ->
  qs_get "Group" (fun x => Group.pk x =? g) (groups db)
  = raise (DoesNotExist "Group").
Proof.
  unfold group_exists. intros H. apply qs_get_none. intros y Hy.
  destruct (Group.pk y =? g) eqn:E; [|reflexivity].
  assert (existsb (fun x => Group.pk x =? g) (groups db) = true)
    by (apply existsb_exists; eauto).
  congruence.
Qed.

(** On its own, [perform_create] does not answer an unknown group with a
    validation error: the [except] branch fails on its [raise]. The branch
    is not reached from [create], where the serializer has looked the group
    up before. *)
Lemma post_perform_create_missing_group db u d v g :
  PostSerializer.group d = Value g -> g <> 0 -> group_exists db g = false ->
  PostListCreateView.perform_create db u d v
  = raise (AttributeError
      "'PostSerializer' object has no attribute 'ValidationError'").
Proof.
  intros Hd Hg H. unfold PostListCreateView.perform_create.
  rewrite Hd. simpl. apply Z.eqb_neq in Hg. rewrite Hg. simpl.
  now rewrite (group_missing_get db g H).
Qed.

Lemma qs_get_raises {A} (model : string) (cond : A -> bool) (l : list A) e :
  qs_get model cond l = inl e ->
  e = DoesNotExist model \/ e = MultipleObjectsReturned model.
Proof.
  unfold qs_get. destruct (qs_filter cond l) as [|x [|y l']];
    intros H; inversion H; auto.
Qed.

(** From [create] the branch is dead: whatever the body, creating a post
    never ends in the [AttributeError]. *)
Lemma post_create_except_unreachable db u d msg :
  PostListCreateView.create db u d <> raise (AttributeError msg).
Proof.
  unfold PostListCreateView.create, PostSerializer.is_valid,
    PostListCreateView.perform_create, fields.PrimaryKeyRelatedField.
  destruct (PostSerializer.group d) as [| |g]; simpl.
  - py_unfold. repeat break_match; congruence.
  - py_unfold. repeat break_match; congruence.
  - destruct (qs_get "Group" (fun x => Group.pk x =? g) (groups db))
      as [e|grp] eqn:Hget.
    + destruct (qs_get_raises _ _ _ _ Hget) as [->| ->]; simpl.
      * py_unfold. repeat break_match; try congruence.
        match goal with
        | H : (_ ++ _ ++ [_])%list = [] |- _ =>
            apply (f_equal (@List.length _)) in H;
            rewrite !length_app in H; simpl in H; lia
        end.
      * discriminate.
    + simpl. py_unfold. repeat break_match; congruence.
Qed.

(** C1 does not hold as stated: here the group exists and the request is
    still answered 400, because the body has no [text]. *)
Lemma post_create_without_text :
  group_exists Example.db 3 = true
  /\ dispatch Example.db (Some Example.alice)
       (post_create (PostSerializer.mk Absent Absent (Value 3) Absent))
     = (mkResponse (Errors [("text", "This field is required.")])
          status.HTTP_400_BAD_REQUEST, Example.db).
Proof. split; reflexivity. Qed.

(** C1, amended. A post request by an authenticated caller names a group.
    If the group exists and the other fields of the body pass validation
    (a text that is not blank; no image or a valid one), the answer is 201,
    the new post has the caller as its author, whatever [author] the body
    carries, and the named group as its group. If the group does not exist
    the answer is 400, its body has an entry for [group], and no post is
    stored. *)
Theorem post_create_group (db : DB) (u : User.t)
    (d : PostSerializer.initial_data) (g : Z) :
  wf_db db ->
  PostSerializer.group d = Value g ->
  (group_exists db g = true ->
   forall text,
     fields.CharField false (PostSerializer.text d) = Valid text ->
     error_of "image" (fields.ImageField (PostSerializer.image d)) = [] ->
     exists p db',
       dispatch db (Some u) (post_create d)
       = (mkResponse (OnePost p) status.HTTP_201_CREATED, db')
       /\ Post.author p = User.pk u
       /\ Post.group p = Some g
       /\ Post.text p = text
       /\ posts db' = (posts db ++ [p])%list)
  /\ (group_exists db g = false ->
      exists errors,
        dispatch db (Some u) (post_create d)
        = (mkResponse (Errors errors) status.HTTP_400_BAD_REQUEST, db)
        /\ In "group" (map fst errors)).
Proof.
  intros Hwf Hd. split.
  - intros Hg text Ht Hi.
    destruct (group_exists_get db g Hwf Hg) as (Hnz & grp & Hpk & Hget).
    apply Z.eqb_neq in Hnz.
    unfold dispatch, handler, PostListCreateView.create,
      PostSerializer.is_valid, fields.PrimaryKeyRelatedField,
      PostListCreateView.perform_create.
    simpl. rewrite Hd, Hget, Ht, Hi. simpl. rewrite Hnz, Hget. simpl.
    rewrite Hpk. eexists _, _. repeat split.
  - intros Hg.
    unfold dispatch, handler, PostListCreateView.create,
      PostSerializer.is_valid, fields.PrimaryKeyRelatedField.
    simpl. rewrite Hd, (group_missing_get db g Hg). simpl.
    destruct (error_of "image" _ ++ error_of "text" _ ++ _)%list
      as [|e errors] eqn:E.
    + apply (f_equal (@List.length _)) in E. rewrite !length_app in E.
      simpl in E. lia.
    + simpl. eexists. split; [reflexivity|]. rewrite <- E.
      rewrite !map_app, !in_app_iff. right. right. now left.
Qed.

Lemma post_create_group_witness :
  exists p db',
    dispatch Example.db (Some Example.bob)
      (post_create (PostSerializer.mk (Value " hello ") Absent (Value 3)
                      (Value "alice")))
    = (mkResponse (OnePost p) status.HTTP_201_CREATED, db')
    /\ Post.author p = 2
    /\ Post.group p = Some 3
    /\ Post.text p = "hello"
    /\ posts db' = (posts Example.db ++ [p])%list.
Proof.
  apply (post_create_group Example.db Example.bob
           (PostSerializer.mk (Value " hello ") Absent (Value 3) (Value "alice"))
           3 Example_wf eq_refl); reflexivity.
Defined.

(** ** Comments *)

(** Under an existing post a comment is stored with the caller as author
    and the post of the path, whatever the body says of either. *)
Lemma comment_create_known_post db u p d text :
  wf_db db -> In p (posts db) ->
  fields.CharField false (CommentSerializer.text d) = Valid text ->
  dispatch db (Some u) (comment_create (Post.pk p) d)
  = (mkResponse
       (OneComment (Comment.mk (comment_seq db) text (User.pk u) (Post.pk p)))
       status.HTTP_201_CREATED,
     snd (insert_comment db text (User.pk u) (Post.pk p))).
Proof.
  intros Hwf Hin Ht.
  unfold dispatch, handler, CommentListCreateView.create,
    CommentSerializer.is_valid, CommentListCreateView.perform_create.
  simpl. rewrite Ht. simpl.
  rewrite (qs_get_one Post.pk "Post" _ (posts db) p);
    auto using wf_post_pk.
  intros y _. apply Z.eqb_eq.
Qed.

(** C8, where the code departs from the contract. Under a post id that
    names no post, no comment is stored, as the contract has it. But the
    answer to a body with a valid text is not a validation error: it is the server
    error of an uncaught [AttributeError], because the [except] branch of
    [perform_create] reads [serializer.ValidationError], which does not
    exist. Only a body whose text is rejected is answered 400, and that
    answer is about the text. *)
Theorem comment_create_missing_post (db : DB) (u : User.t) (post_id : Z)
    (d : CommentSerializer.initial_data) :
  (forall p, In p (posts db) -> Post.pk p <> post_id) ->
  snd (dispatch db (Some u) (comment_create post_id d)) = db
  /\ (forall text,
        fields.CharField false (CommentSerializer.text d) = Valid text ->
        fst (dispatch db (Some u) (comment_create post_id d))
        = mkResponse
            (Uncaught (AttributeError
               "'CommentSerializer' object has no attribute 'ValidationError'"))
            status.HTTP_500_INTERNAL_SERVER_ERROR)
  /\ (forall msg,
        fields.CharField false (CommentSerializer.text d) = Failed msg ->
        fst (dispatch db (Some u) (comment_create post_id d))
        = mkResponse (Errors [("text", msg)]) status.HTTP_400_BAD_REQUEST).
Proof.
  intros Hp.
  assert (Hget : qs_get "Post" (fun p => Post.pk p =? post_id) (posts db)
                 = raise (DoesNotExist "Post")).
  { apply qs_get_none. intros y Hy. apply Z.eqb_neq. now apply Hp. }
  unfold dispatch, handler, CommentListCreateView.create,
    CommentSerializer.is_valid, CommentListCreateView.perform_create.
  simpl. rewrite Hget.
  destruct (fields.CharField false (CommentSerializer.text d)) as [|m|t] eqn:Ht.
  - now apply CharField_required in Ht.
  - simpl. split; [reflexivity|]. split; [discriminate|].
    intros msg E. now inversion E.
  - simpl. split; [reflexivity|]. split; [reflexivity|discriminate].
Qed.

Lemma comment_create_missing_post_witness :
  dispatch Example.db (Some Example.alice)
    (comment_create 999 (CommentSerializer.mk (Value "hi") Absent Absent))
  = (mkResponse
       (Uncaught (AttributeError
          "'CommentSerializer' object has no attribute 'ValidationError'"))
       status.HTTP_500_INTERNAL_SERVER_ERROR, Example.db).
Proof.
  destruct (comment_create_missing_post Example.db Example.alice 999
              (CommentSerializer.mk (Value "hi") Absent Absent))
    as (Hdb & Hresp & _).
  - simpl. intros p [<-|[]]. discriminate.
  - specialize (Hresp "hi" eq_refl).
    destruct (dispatch Example.db (Some Example.alice) _) as [resp db'].
    simpl in Hdb, Hresp. now subst.
Defined.

(** C10 does not hold as stated for a caller without a token: the
    permission check answers 401 before the comment is looked up. *)
Lemma comment_mismatch_anonymous :
  dispatch Example.db None (comment_destroy 1 999)
  = (mkResponse (Detail "Authentication credentials were not provided.")
       status.HTTP_401_UNAUTHORIZED, Example.db)
  /\ dispatch Example.db None
       (comment_update true 2 1 (CommentSerializer.mk (Value "x") Absent Absent))
     = (mkResponse (Detail "Authentication credentials were not provided.")
          status.HTTP_401_UNAUTHORIZED, Example.db).
Proof. split; reflexivity. Qed.

Lemma comment_get_object_mismatch db post_id pk :
  (forall c, In c (comments db) -> Comment.post c = post_id ->
             Comment.pk c <> pk) ->
  CommentRetrieveUpdateDestroyView.get_object db post_id pk = raise Http404.
Proof.
  intros H.
  unfold CommentRetrieveUpdateDestroyView.get_object, get_object_or_404,
    CommentRetrieveUpdateDestroyView.get_queryset, qs_filter.
  rewrite qs_get_none; [reflexivity|].
  intros y Hy. apply filter_In in Hy. destruct Hy as [Hin Hc].
  apply andb_prop in Hc. destruct Hc as [Hpost _].
  apply Z.eqb_eq in Hpost. apply Z.eqb_neq. now apply H.
Qed.

(** C10, amended. When no comment has both the post id and the comment id
    of the path, an update or a delete is answered 404 for every
    authenticated caller, author or not, and 401 for a caller without a
    token; it is never answered 403, and the store is left as it was. *)
Theorem comment_mismatch_not_found (db : DB) (user : option User.t)
    (partial : bool) (post_id pk : Z) (d : CommentSerializer.initial_data) :
  (forall c, In c (comments db) -> Comment.post c = post_id ->
             Comment.pk c <> pk) ->
  let expected :=
    match user with
    | Some _ => mkResponse (Detail "Not found.") status.HTTP_404_NOT_FOUND
    | None =>
        mkResponse (Detail "Authentication credentials were not provided.")
          status.HTTP_401_UNAUTHORIZED
    end in
  dispatch db user (comment_update partial post_id pk d) = (expected, db)
  /\ dispatch db user (comment_destroy post_id pk) = (expected, db)
  /\ status_code expected <> status.HTTP_403_FORBIDDEN.
Proof.
  intros H expected. subst expected.
  unfold dispatch, handler, CommentRetrieveUpdateDestroyView.update,
    CommentRetrieveUpdateDestroyView.destroy.
  rewrite (comment_get_object_mismatch db post_id pk H).
  destruct user, partial; simpl; repeat split; discriminate.
Qed.

Lemma comment_mismatch_not_found_witness :
  dispatch Example.db (Some Example.alice)
    (comment_update true 2 1 (CommentSerializer.mk (Value "x") Absent Absent))
  = (mkResponse (Detail "Not found.") status.HTTP_404_NOT_FOUND, Example.db)
  /\ dispatch Example.db (Some Example.alice) (comment_destroy 1 999)
     = (mkResponse (Detail "Not found.") status.HTTP_404_NOT_FOUND, Example.db).
Proof.
  split.
  - apply (comment_mismatch_not_found Example.db (Some Example.alice) true 2 1
             (CommentSerializer.mk (Value "x") Absent Absent)).
    simpl. intros c [<-|[]] Hp. discriminate Hp.
  - apply (comment_mismatch_not_found Example.db (Some Example.alice) true 1 999
             (CommentSerializer.mk Absent Absent Absent)).
    simpl. intros c [<-|[]] _. discriminate.
Defined.

Lemma comment_created db u post_id d resp db' :
  dispatch db (Some u) (comment_create post_id d) = (resp, db') ->
  status_code resp = status.HTTP_201_CREATED ->
  exists text,
    resp = mkResponse
             (OneComment (Comment.mk (comment_seq db) text (User.pk u) post_id))
             status.HTTP_201_CREATED
    /\ db' = snd (insert_comment db text (User.pk u) post_id).
Proof.
  unfold dispatch, handler, CommentListCreateView.create,
    CommentListCreateView.perform_create, CommentSerializer.save_create.
  simpl. py_unfold. intros H Hs.
  repeat (break_match; py_inv; try discriminate); py_inv;
    try discriminate Hs;
    try match goal with
        | Hs : status_code (exception_handler ?e) = _ |- _ =>
            destruct e; discriminate Hs
        end.
  match goal with
  | H : qs_get _ _ _ = inr ?p |- _ =>
      apply qs_get_ok in H; destruct H as [_ H]; apply Z.eqb_eq in H;
      rewrite H
  end.
  eexists. split; reflexivity.
Qed.

(** C7. The comment list under a post id is the plain list, whatever the
    query string says, of exactly the comments whose post is that id, in
    the order of the table; and the table is in insertion order: a comment
    created under the post comes last in the next listing. *)
Theorem comment_list_scoped (db : DB) (user : option User.t) (post_id : Z)
    (q : QueryDict) :
  let rows := CommentListCreateView.get_queryset db post_id in
  dispatch db user (comment_list post_id q)
  = (mkResponse (Comments rows) status.HTTP_200_OK, db)
  /\ (forall c, In c rows <-> In c (comments db) /\ Comment.post c = post_id)
  /\ subseq rows (comments db)
  /\ (forall u d resp db',
         dispatch db (Some u) (comment_create post_id d) = (resp, db') ->
         status_code resp = status.HTTP_201_CREATED ->
         exists c,
           data resp = OneComment c
           /\ comments db' = (comments db ++ [c])%list
           /\ CommentListCreateView.get_queryset db' post_id
              = (rows ++ [c])%list).
Proof.
  intros rows. subst rows. split; [|split; [|split]].
  - now destruct user.
  - intros c. unfold CommentListCreateView.get_queryset, qs_filter.
    rewrite filter_In, Z.eqb_eq. tauto.
  - apply subseq_filter.
  - intros u d resp db' Hd Hs.
    destruct (comment_created db u post_id d resp db' Hd Hs)
      as (text & -> & ->).
    eexists. split; [reflexivity|]. split; [reflexivity|].
    unfold CommentListCreateView.get_queryset, qs_filter. simpl.
    rewrite filter_app. simpl. now rewrite Z.eqb_refl.
Qed.

Lemma comment_list_scoped_witness :
  exists c,
    comments (snd (dispatch Example.db (Some Example.alice)
                     (comment_create 1
                        (CommentSerializer.mk (Value "me too") Absent
                           (Value 7)))))
    = [Example.first_comment; c]
    /\ Comment.post c = 1.
Proof.
  destruct (comment_list_scoped Example.db None 1 [("limit", "1")])
    as (_ & _ & _ & H).
  destruct (H Example.alice
              (CommentSerializer.mk (Value "me too") Absent (Value 7))
              _ _ eq_refl eq_refl) as (c & Hc & Hl & _).
  exists c. split; [exact Hl|]. simpl in Hc. inversion Hc. reflexivity.
Defined.

(** ** Strings *)

Lemma startswith_spec p : forall s,
  PyStr.startswith s p = true <-> exists rest, s = p ++ rest.
Proof.
  induction p as [|a p IH]; intros s; simpl.
  - destruct s; split; eauto.
  - destruct s as [|b s]; simpl.
    + split; [discriminate | intros [rest H]; discriminate].
    + rewrite andb_true_iff, Ascii.eqb_eq, IH. split.
      * intros [-> [rest ->]]. now exists rest.
      * intros [rest H]. inversion H; subst. eauto.
Qed.

Lemma contains_spec needle : forall hay,
  PyStr.contains hay needle = true
  <-> exists before after, hay = before ++ needle ++ after.
Proof.
  induction hay as [|c hay IH].
  - change (PyStr.contains EmptyString needle)
      with (PyStr.startswith EmptyString needle).
    rewrite startswith_spec. split.
    + intros [rest H]. now exists EmptyString, rest.
    + intros (before & after & H). destruct before; [|discriminate].
      now exists after.
  - change (PyStr.contains (String c hay) needle)
      with (PyStr.startswith (String c hay) needle
            || PyStr.contains hay needle).
    rewrite orb_true_iff, IH, startswith_spec. split.
    + intros [[rest H]|(before & after & H)].
      * now exists EmptyString, rest.
      * exists (String c before), after. simpl. now rewrite H.
    + intros (before & after & H). destruct before as [|b before].
      * left. now exists after.
      * right. inversion H; subst. eauto.
Qed.

(** ** The follow list *)

Lemma icontains_join db search f :
  FollowView.following__username__icontains db search f = true
  <-> exists t,
      In t (users db) /\ User.pk t = Follow.following f
      /\ icontains (User.username t) search.
Proof.
  unfold FollowView.following__username__icontains, icontains.
  rewrite existsb_exists. split.
  - intros (t & Hin & H). apply andb_prop in H. destruct H as [Hpk Hc].
    apply Z.eqb_eq in Hpk. apply contains_spec in Hc. eauto.
  - intros (t & Hin & Hpk & Hc). exists t. split; [exact Hin|].
    apply andb_true_intro. split; [now apply Z.eqb_eq|].
    now apply contains_spec.
Qed.


Lemma Example_follows_wf : wf_db Example.db_follows.
Proof.
  constructor; simpl;
    repeat (constructor; simpl; try lia; try reflexivity;
            try (intros H; intuition discriminate)).
  - exists Example.bob. simpl. auto.
  - exists Example.alice. simpl. auto.
Qed.


(** ** Pagination *)

Lemma Paginator_page_chunk {A} (rows : list A) (size n : Z) :
  1 <= size -> 1 <= n ->
  PageNumberPagination.Paginator_page rows size n = chunk rows size n.
Proof.
  intros Hs Hn.
  unfold PageNumberPagination.Paginator_page, PageNumberPagination.slice, chunk.
  set (bottom := (n - 1) * size).
  assert (Hb : 0 <= bottom) by (unfold bottom; nia).
  pose proof (length_skipn (Z.to_nat bottom) rows) as Hlen.
  destruct (Z.geb_spec (bottom + size) (Z.of_nat (List.length rows))) as [Hge|Hlt].
  - rewrite !firstn_all2; [reflexivity| |]; rewrite Hlen; lia.
  - f_equal. lia.
Qed.

Lemma num_pages_positive (count size : Z) :
  1 <= size -> 1 <= PageNumberPagination.Paginator_num_pages count size.
Proof.
  intros Hs. unfold PageNumberPagination.Paginator_num_pages.
  apply Z.div_le_lower_bound; lia.
Qed.


Section PageSize.
Variable q : QueryDict.

Lemma page_size_default :
  qd_get q "limit" = None ->
  StandardResultsPagination.get_page_size q = 10.
Proof.
  intros H.
  unfold StandardResultsPagination.get_page_size,
    PageNumberPagination.get_page_size,
    StandardResultsPagination.page_size_query_param.
  now rewrite H.
Qed.

Lemma page_size_explicit s n :
  qd_get q "limit" = Some s -> PyStr.int s = Some n -> 0 < n ->
  StandardResultsPagination.get_page_size q = Z.min n 100.
Proof.
  intros H Hi Hn.
  unfold StandardResultsPagination.get_page_size,
    PageNumberPagination.get_page_size,
    PageNumberPagination._positive_int,
    StandardResultsPagination.page_size_query_param.
  rewrite H, Hi.
  destruct (Z.ltb_spec n 0); [lia|].
  destruct (Z.eqb_spec n 0); [lia|]. reflexivity.
Qed.

Lemma page_size_fallback s :
  qd_get q "limit" = Some s ->
  (PyStr.int s = None \/ exists n, PyStr.int s = Some n /\ n <= 0) ->
  StandardResultsPagination.get_page_size q = 10.
Proof.
  intros H Hi.
  unfold StandardResultsPagination.get_page_size,
    PageNumberPagination.get_page_size,
    PageNumberPagination._positive_int,
    StandardResultsPagination.page_size_query_param.
  rewrite H. destruct Hi as [->|(n & -> & Hn)]; [reflexivity|].
  destruct (Z.ltb_spec n 0); [reflexivity|].
  destruct (Z.eqb_spec n 0); [reflexivity|lia].
Qed.

Lemma page_size_bounds :
  1 <= StandardResultsPagination.get_page_size q <= 100.
Proof.
  destruct (qd_get q "limit") as [s|] eqn:H.
  - destruct (PyStr.int s) as [n|] eqn:Hi.
    + destruct (Z.lt_ge_cases 0 n).
      * rewrite (page_size_explicit s n H Hi); lia.
      * rewrite (page_size_fallback s H); [lia|].
        right. exists n. split; [exact Hi|lia].
    + rewrite (page_size_fallback s H); [lia|]. now left.
  - rewrite (page_size_default H). lia.
Qed.


End PageSize.

Lemma dispatch_post_list db user q :
  dispatch db user (post_list q)
  = match ListModelMixin_list Posts
            (Some StandardResultsPagination.paginate_queryset) (posts db) q with
    | inr r => (r, db)
    | inl e => (exception_handler e, db)
    end.
Proof.
  unfold dispatch, handler, read_only, PostListCreateView.list,
    PostListCreateView.queryset.
  destruct user; simpl; destruct (ListModelMixin_list _ _ _ _); reflexivity.
Qed.

Lemma dispatch_group_list db user q :
  dispatch db user (group_list q)
  = match ListModelMixin_list Groups
            (Some StandardResultsPagination.paginate_queryset) (groups db) q with
    | inr r => (r, db)
    | inl e => (exception_handler e, db)
    end.
Proof.
  unfold dispatch, handler, read_only, GroupListView.list,
    GroupListView.queryset.
  simpl; destruct (ListModelMixin_list _ _ _ _); reflexivity.
Qed.




(** ** What the caller of a request can and cannot write *)

Lemma get_object_or_404_ok {A} (model : string) (cond : A -> bool)
    (l : list A) (x : A) :
  get_object_or_404 model cond l = inr x -> In x l /\ cond x = true.
Proof.
  unfold get_object_or_404, try_except.
  destruct (qs_get model cond l) as [e|y] eqn:H.
  - destruct (is_DoesNotExist model e); discriminate.
  - intros E. inversion E; subst. now apply qs_get_ok in H.
Qed.

Lemma post_create_writes db u d resp db' :
  PostListCreateView.create db u d = inr (resp, db') -> writes u db db'.
Proof.
  unfold PostListCreateView.create, PostListCreateView.perform_create,
    PostSerializer.save_create.
  view_effect.
Qed.

Lemma post_update_writes db u partial pk d resp db' :
  PostRetrieveUpdateDestroyView.update db u partial pk d = inr (resp, db') ->
  writes u db db'.
Proof.
  unfold PostRetrieveUpdateDestroyView.update,
    PostRetrieveUpdateDestroyView.super_update.
  destruct (PostRetrieveUpdateDestroyView.get_object db pk)
    as [e|instance] eqn:Hget; simpl; [discriminate|].
  destruct (Post.author instance =? User.pk u) eqn:Ha; simpl.
  - apply Z.eqb_eq in Ha.
    apply get_object_or_404_ok in Hget. destruct Hget as [Hin _].
    destruct (PostSerializer.is_valid db partial d) as [e|v]; simpl;
      [discriminate|].
    intros E. inversion E; subst.
    now apply (w_save_post u db instance).
  - intros E. inversion E; subst. constructor.
Qed.

Lemma post_destroy_writes db u pk resp db' :
  PostRetrieveUpdateDestroyView.destroy db u pk = inr (resp, db') ->
  writes u db db'.
Proof.
  unfold PostRetrieveUpdateDestroyView.destroy,
    PostRetrieveUpdateDestroyView.super_destroy.
  destruct (PostRetrieveUpdateDestroyView.get_object db pk)
    as [e|instance] eqn:Hget; simpl; [discriminate|].
  destruct (Post.author instance =? User.pk u) eqn:Ha; simpl.
  - apply Z.eqb_eq in Ha.
    apply get_object_or_404_ok in Hget. destruct Hget as [Hin _].
    intros E. inversion E; subst. now apply w_delete_post.
  - intros E. inversion E; subst. constructor.
Qed.

Lemma comment_create_writes db u post_id d resp db' :
  CommentListCreateView.create db u post_id d = inr (resp, db') ->
  writes u db db'.
Proof.
  unfold CommentListCreateView.create, CommentListCreateView.perform_create,
    CommentSerializer.save_create.
  destruct (CommentSerializer.is_valid false d) as [e|v]; simpl;
    [discriminate|].
  unfold try_except.
  destruct (qs_get "Post" (fun p => Post.pk p =? post_id) (posts db))
    as [e|post] eqn:Hget; simpl.
  - destruct (is_DoesNotExist "Post" e); discriminate.
  - apply qs_get_ok in Hget. destruct Hget as [Hin _].
    intros E. inversion E; subst. now apply w_insert_comment.
Qed.

Lemma comment_update_writes db u partial post_id pk d resp db' :
  CommentRetrieveUpdateDestroyView.update db u partial post_id pk d
  = inr (resp, db') ->
  writes u db db'.
Proof.
  unfold CommentRetrieveUpdateDestroyView.update,
    CommentRetrieveUpdateDestroyView.super_update.
  destruct (CommentRetrieveUpdateDestroyView.get_object db post_id pk)
    as [e|instance] eqn:Hget; simpl; [discriminate|].
  destruct (Comment.author instance =? User.pk u) eqn:Ha; simpl.
  - apply Z.eqb_eq in Ha.
    apply get_object_or_404_ok in Hget. destruct Hget as [Hin _].
    apply filter_In in Hin. destruct Hin as [Hin _].
    destruct (CommentSerializer.is_valid partial d) as [e|v]; simpl;
      [discriminate|].
    intros E. inversion E; subst.
    now apply (w_save_comment u db instance).
  - intros E. inversion E; subst. constructor.
Qed.

Lemma comment_destroy_writes db u post_id pk resp db' :
  CommentRetrieveUpdateDestroyView.destroy db u post_id pk = inr (resp, db') ->
  writes u db db'.
Proof.
  unfold CommentRetrieveUpdateDestroyView.destroy,
    CommentRetrieveUpdateDestroyView.super_destroy.
  destruct (CommentRetrieveUpdateDestroyView.get_object db post_id pk)
    as [e|instance] eqn:Hget; simpl; [discriminate|].
  destruct (Comment.author instance =? User.pk u) eqn:Ha; simpl.
  - apply Z.eqb_eq in Ha.
    apply get_object_or_404_ok in Hget. destruct Hget as [Hin _].
    apply filter_In in Hin. destruct Hin as [Hin _].
    intros E. inversion E; subst. now apply w_delete_comment.
  - intros E. inversion E; subst. constructor.
Qed.

Lemma follow_post_writes db u d resp db' :
  FollowView.post db u d = inr (resp, db') -> writes u db db'.
Proof.
  unfold FollowView.post.
  destruct (FollowSerializer.is_valid db d) as [e|v]; simpl; [discriminate|].
  destruct (FollowSerializer.v_following v) as [name|]; simpl;
    [|discriminate].
  destruct (qs_get "User" _ (users db)) as [e|target] eqn:Hget.
  - destruct (is_DoesNotExist "User" e); intros E; inversion E; subst.
    constructor.
  - apply qs_get_ok in Hget. destruct Hget as [Hin _].
    unfold User.eqb.
    destruct (Z.eqb_spec (User.pk u) (User.pk target)) as [Heq|Hne].
    + intros E. inversion E; subst. constructor.
    + destruct (qs_exists _) eqn:Hex; intros E; inversion E; subst.
      * constructor.
      * apply qs_exists_false in Hex. apply w_insert_follow; auto.
Qed.

Lemma dispatch_writes db u r : writes u db (snd (dispatch db (Some u) r)).
Proof.
  unfold dispatch, bind.
  destruct (check_permissions _ _ _); [constructor|].
  destruct (handler db (Some u) r) as [e|[resp db']] eqn:H; [constructor|].
  simpl. destruct r; simpl in H; py_unfold;
    repeat (break_match; py_inv; try discriminate); py_inv;
    try constructor;
    eauto using post_create_writes, post_update_writes, post_destroy_writes,
      comment_create_writes, comment_update_writes, comment_destroy_writes,
      follow_post_writes.
Qed.

Lemma dispatch_anonymous_store db r : snd (dispatch db None r) = db.
Proof.
  unfold dispatch, bind.
  destruct (check_permissions _ _ _); [reflexivity|].
  destruct r; simpl; py_unfold;
    repeat (break_match; py_inv; try discriminate); reflexivity.
Qed.

Lemma writes_users u db db' : writes u db db' -> users db' = users db.
Proof. destruct 1; reflexivity. Qed.

Lemma writes_groups u db db' : writes u db db' -> groups db' = groups db.
Proof. destruct 1; reflexivity. Qed.

Lemma serve_groups calls : forall db, groups (serve db calls) = groups db.
Proof.
  induction calls as [|[user r] calls IH]; simpl; intros db; [reflexivity|].
  rewrite IH. apply effect_groups, dispatch_effect.
Qed.

Lemma in_overwrite_other {A} (key : A -> Z) (instance x : A) (l : list A) :
  In x l -> key x <> key instance -> In x (overwrite key instance l).
Proof.
  intros Hin Hne. unfold overwrite. apply in_map_iff. exists x.
  split; [|exact Hin]. apply Z.eqb_neq in Hne. now rewrite Hne.
Qed.

(** X1. Whatever a request of an authenticated caller adds to or changes in
    the post, comment and follow tables carries the caller: a post or a
    comment that was not there before has the caller as its author, a new
    edge has the caller as its follower. *)
Theorem new_rows_carry_the_caller (db : DB) (u : User.t) (r : Request) :
  let db' := snd (dispatch db (Some u) r) in
  (forall p, In p (posts db') -> In p (posts db) \/ Post.author p = User.pk u)
  /\ (forall c, In c (comments db') ->
                In c (comments db) \/ Comment.author c = User.pk u)
  /\ (forall f, In f (follows db') ->
                In f (follows db) \/ Follow.user f = User.pk u).
Proof.
  intros db'. subst db'.
  destruct (dispatch_writes db u r); simpl; repeat split; auto;
    intros x Hx;
    try (apply in_app_iff in Hx; destruct Hx as [Hx|[<-|[]]]; now auto);
    try (apply in_overwrite in Hx; destruct Hx as [->|Hx]; [right|now left];
         congruence);
    try (apply filter_In in Hx; now left).
Qed.

Lemma writes_keeps_post u db db' p :
  wf_db db -> writes u db db' -> In p (posts db) ->
  User.pk u <> Post.author p -> In p (posts db').
Proof.
  intros Hwf Hw Hin Hne. destruct Hw; simpl; auto.
  - apply in_app_iff. now left.
  - apply in_overwrite_other; [exact Hin|]. intros E.
    assert (p = old)
      by (eapply (NoDup_key_inj Post.pk); eauto using wf_post_pk; congruence).
    subst. congruence.
  - apply filter_In. split; [exact Hin|]. apply negb_true_iff, Z.eqb_neq.
    intros E.
    assert (p = old)
      by (eapply (NoDup_key_inj Post.pk); eauto using wf_post_pk).
    subst. congruence.
Qed.

(** X2. A post outlives, unchanged, every sequence of requests whose callers
    are other users or carry no token: only its author can change or delete
    it, through whatever route. *)
Theorem post_survives_other_callers (db : DB) (p : Post.t)
    (calls : list (option User.t * Request)) :
  wf_db db -> In p (posts db) ->
  callers_other_than (Post.author p) calls ->
  In p (posts (serve db calls)).
Proof.
  revert db. induction calls as [|[user r] calls IH]; simpl;
    intros db Hwf Hin Hc; [exact Hin|].
  inversion Hc as [|call rest Hcall Hrest]; subst. simpl in Hcall.
  apply IH; [now apply dispatch_wf| |exact Hrest].
  destruct user as [u|].
  - eapply writes_keeps_post; eauto using dispatch_writes.
  - now rewrite dispatch_anonymous_store.
Qed.

Lemma post_survives_other_callers_witness :
  In Example.first_post
    (posts (serve Example.db
              [(Some Example.bob, post_destroy 1);
               (None, post_destroy 1);
               (Some Example.bob,
                post_update true 1
                  (PostSerializer.mk (Value "mine") Absent Absent Absent))])).
Proof.
  apply (post_survives_other_callers Example.db Example.first_post _
           Example_wf).
  - simpl. auto.
  - repeat constructor; simpl; lia.
Defined.

Lemma writes_post_seq u db db' :
  writes u db db' -> post_seq db <= post_seq db'.
Proof. destruct 1; simpl; lia. Qed.

Lemma writes_comment_seq u db db' :
  writes u db db' -> comment_seq db <= comment_seq db'.
Proof. destruct 1; simpl; lia. Qed.

Lemma writes_post_author u db db' pk author :
  writes u db db' -> pk < post_seq db ->
  (forall p, In p (posts db) -> Post.pk p = pk -> Post.author p = author) ->
  forall p, In p (posts db') -> Post.pk p = pk -> Post.author p = author.
Proof.
  intros Hw Hlt Hinv. destruct Hw; simpl; auto; intros p Hp Hpk.
  - apply in_app_iff in Hp. destruct Hp as [Hp|[<-|[]]]; auto.
    simpl in Hpk. lia.
  - apply in_overwrite in Hp. destruct Hp as [->|Hp]; auto.
    rewrite H1. apply Hinv; congruence.
  - apply filter_In in Hp. apply Hinv; tauto.
Qed.

Lemma writes_comment_parent u db db' pk author post :
  writes u db db' -> pk < comment_seq db ->
  (forall c, In c (comments db) -> Comment.pk c = pk ->
             Comment.author c = author /\ Comment.post c = post) ->
  forall c, In c (comments db') -> Comment.pk c = pk ->
            Comment.author c = author /\ Comment.post c = post.
Proof.
  intros Hw Hlt Hinv. destruct Hw; simpl; auto; intros c Hc Hpk.
  - apply filter_In in Hc. apply Hinv; tauto.
  - apply in_app_iff in Hc. destruct Hc as [Hc|[<-|[]]]; auto.
    simpl in Hpk. lia.
  - apply in_overwrite in Hc. destruct Hc as [->|Hc]; auto.
    rewrite H1, H2. apply Hinv; congruence.
  - apply filter_In in Hc. apply Hinv; tauto.
Qed.

Lemma writes_of_dispatch db user r :
  snd (dispatch db user r) = db
  \/ exists u, user = Some u /\ writes u db (snd (dispatch db user r)).
Proof.
  destruct user as [u|].
  - right. exists u. split; [reflexivity | apply dispatch_writes].
  - left. apply dispatch_anonymous_store.
Qed.

(** X3. The author of a post, and the author and the post of a comment, are
    fixed for good: after any sequence of requests, a row that has the key
    of a row of today has its author, and for a comment its post. *)
Theorem authorship_never_changes (db : DB)
    (calls : list (option User.t * Request)) :
  wf_db db ->
  (forall p p',
      In p (posts db) -> In p' (posts (serve db calls)) ->
      Post.pk p' = Post.pk p -> Post.author p' = Post.author p)
  /\ (forall c c',
         In c (comments db) -> In c' (comments (serve db calls)) ->
         Comment.pk c' = Comment.pk c ->
         Comment.author c' = Comment.author c
         /\ Comment.post c' = Comment.post c).
Proof.
  intros Hwf. split.
  - intros p p' Hin.
    assert (Hlt : Post.pk p < post_seq db).
    { pose proof (wf_post_seq db Hwf) as H. rewrite Forall_forall in H.
      now apply H. }
    assert (Hinv : forall q, In q (posts db) -> Post.pk q = Post.pk p ->
                             Post.author q = Post.author p).
    { intros q Hq E. f_equal.
      eapply (NoDup_key_inj Post.pk); eauto using wf_post_pk. }
    clear Hin Hwf. revert db Hlt Hinv.
    induction calls as [|[user r] calls IH]; simpl; intros db Hlt Hinv;
      [apply Hinv|].
    destruct (writes_of_dispatch db user r) as [->|(u & _ & Hw)];
      [now apply IH|].
    apply IH.
    + pose proof (writes_post_seq u _ _ Hw). lia.
    + eapply writes_post_author; eauto.
  - intros c c' Hin.
    assert (Hlt : Comment.pk c < comment_seq db).
    { pose proof (wf_comment_seq db Hwf) as H. rewrite Forall_forall in H.
      now apply H. }
    assert (Hinv : forall q, In q (comments db) ->
                             Comment.pk q = Comment.pk c ->
                             Comment.author q = Comment.author c
                             /\ Comment.post q = Comment.post c).
    { intros q Hq E.
      assert (q = c)
        by (eapply (NoDup_key_inj Comment.pk); eauto using wf_comment_pk).
      now subst. }
    clear Hin Hwf. revert db Hlt Hinv.
    induction calls as [|[user r] calls IH]; simpl; intros db Hlt Hinv;
      [apply Hinv|].
    destruct (writes_of_dispatch db user r) as [->|(u & _ & Hw)];
      [now apply IH|].
    apply IH.
    + pose proof (writes_comment_seq u _ _ Hw). lia.
    + eapply writes_comment_parent; eauto.
Qed.

Lemma authorship_never_changes_witness :
  Forall (fun p' => Post.pk p' = 1 -> Post.author p' = 1)
    (posts (serve Example.db
              [(Some Example.alice,
                post_update false 1
                  (PostSerializer.mk (Value "edited") Absent Absent
                     (Value "bob")))])).
Proof.
  apply Forall_forall. intros p' Hin Hpk.
  destruct (authorship_never_changes Example.db
              [(Some Example.alice,
                post_update false 1
                  (PostSerializer.mk (Value "edited") Absent Absent
                     (Value "bob")))] Example_wf) as [H _].
  apply (H Example.first_post p'); simpl; auto.
Defined.

(** X4. The API never writes to the user table or to the group table: both
    are the same after any sequence of requests. *)
Theorem users_and_groups_read_only (db : DB)
    (calls : list (option User.t * Request)) :
  users (serve db calls) = users db /\ groups (serve db calls) = groups db.
Proof. split; [apply serve_users | apply serve_groups]. Qed.

Lemma writes_follow_invariants u db db' :
  writes u db db' ->
  no_self_follow db ->
  Forall (fun f => is_user db (Follow.following f)) (follows db) ->
  no_self_follow db'
  /\ Forall (fun f => is_user db' (Follow.following f)) (follows db').
Proof.
  unfold no_self_follow, is_user.
  destruct 1; simpl; intros Hs Ht; auto.
  split; apply Forall_app; split; auto; constructor; simpl; auto.
  exists target. auto.
Qed.

(** X5. Two rules of the follow table hold after every sequence of requests
    if they hold before: no edge leads from a user to themselves, and the
    target of every edge is a row of the user table. *)
Theorem follow_table_invariants (db : DB)
    (calls : list (option User.t * Request)) :
  no_self_follow db ->
  Forall (fun f => is_user db (Follow.following f)) (follows db) ->
  no_self_follow (serve db calls)
  /\ Forall (fun f => is_user (serve db calls) (Follow.following f))
       (follows (serve db calls)).
Proof.
  revert db. induction calls as [|[user r] calls IH]; simpl;
    intros db Hs Ht; [now split|].
  destruct (writes_of_dispatch db user r) as [->|(u & _ & Hw)];
    [now apply IH|].
  destruct (writes_follow_invariants u _ _ Hw Hs Ht). now apply IH.
Qed.

Lemma follow_table_invariants_witness :
  no_self_follow
    (serve Example.db_follows
       [(Some Example.alice,
         follow_create (FollowSerializer.mk (Value "alice") Absent));
        (Some Example.bob,
         follow_create (FollowSerializer.mk (Value "alice") Absent))]).
Proof.
  apply (follow_table_invariants Example.db_follows).
  - repeat constructor; simpl; lia.
  - exact (wf_follow_target _ Example_follows_wf).
Defined.

(** ** Which answers go with a changed store *)

Ltac unfold_views :=
  unfold PostListCreateView.create, PostListCreateView.perform_create,
    PostSerializer.save_create,
    PostRetrieveUpdateDestroyView.update,
    PostRetrieveUpdateDestroyView.super_update,
    PostRetrieveUpdateDestroyView.destroy,
    PostRetrieveUpdateDestroyView.super_destroy,
    PostSerializer.save_update,
    CommentListCreateView.create, CommentListCreateView.perform_create,
    CommentSerializer.save_create,
    CommentRetrieveUpdateDestroyView.update,
    CommentRetrieveUpdateDestroyView.super_update,
    CommentRetrieveUpdateDestroyView.destroy,
    CommentRetrieveUpdateDestroyView.super_destroy,
    CommentSerializer.save_update, FollowView.post, FollowView.get in *.

Lemma handler_outcome db user r resp db' :
  handler db user r = inr (resp, db') ->
  db' = db
  \/ method_of r <> GET
     /\ In (status_code resp)
          [status.HTTP_200_OK; status.HTTP_201_CREATED;
           status.HTTP_204_NO_CONTENT].
Proof.
  intros H. destruct r; simpl in H; unfold_views; py_unfold;
    repeat (break_match; py_inv; try discriminate); py_inv; auto;
    right;
    (split; [simpl; try match goal with
                        | |- context [if ?b then _ else _] => destruct b
                        end; discriminate
            | simpl; auto]).
Qed.

(** X6. A request changes the store only when it is a write (not a GET) and
    is answered 200, 201 or 204: reads and every request answered with an
    error leave the store exactly as it was. *)
Theorem store_changes_only_on_success (db : DB) (user : option User.t)
    (r : Request) :
  snd (dispatch db user r) = db
  \/ method_of r <> GET
     /\ In (status_code (fst (dispatch db user r)))
          [status.HTTP_200_OK; status.HTTP_201_CREATED;
           status.HTTP_204_NO_CONTENT].
Proof.
  unfold dispatch, bind.
  destruct (check_permissions _ _ _); [now left|].
  destruct (handler db user r) as [e|[resp db']] eqn:H; [now left|].
  simpl. eapply handler_outcome; eauto.
Qed.

(** ** Reading one row *)

Lemma qs_get_by_key {A} (key : A -> Z) (model : string) (k : Z) (l : list A) :
  NoDup (map key l) ->
  match find (fun x => key x =? k) l with
  | Some x => qs_get model (fun x => key x =? k) l = ret x
  | None => qs_get model (fun x => key x =? k) l = raise (DoesNotExist model)
  end.
Proof.
  intros Hnd. destruct (find _ l) as [x|] eqn:E.
  - apply find_some in E. destruct E as [Hin Hk]. apply Z.eqb_eq in Hk.
    apply (qs_get_one key); auto. intros y _. rewrite Z.eqb_eq. now rewrite Hk.
  - apply qs_get_none. intros y Hy. exact (find_none _ _ E y Hy).
Qed.

Lemma get_object_or_404_by_key {A} (key : A -> Z) (model : string) (k : Z)
    (l : list A) :
  NoDup (map key l) ->
  (exists x, In x l /\ key x = k
             /\ get_object_or_404 model (fun x => key x =? k) l = ret x)
  \/ (forall x, In x l -> key x <> k)
     /\ get_object_or_404 model (fun x => key x =? k) l = raise Http404.
Proof.
  intros Hnd. pose proof (qs_get_by_key key model k l Hnd) as H.
  unfold get_object_or_404, try_except.
  destruct (find _ l) as [x|] eqn:E; rewrite H.
  - left. apply find_some in E. destruct E as [Hin Hk].
    apply Z.eqb_eq in Hk. now exists x.
  - right. split.
    + intros x Hx. apply Z.eqb_neq. exact (find_none _ _ E x Hx).
    + simpl. now rewrite String.eqb_refl.
Qed.

(** X7. Reading one post needs no token: for every caller the answer is 200
    with the post when a post has the key of the path, and 404 when none
    has. *)
Theorem post_detail_found_or_404 (db : DB) (user : option User.t) :
  wf_db db ->
  (forall p, In p (posts db) ->
             dispatch db user (post_detail (Post.pk p))
             = (mkResponse (OnePost p) status.HTTP_200_OK, db))
  /\ (forall pk, (forall p, In p (posts db) -> Post.pk p <> pk) ->
                 dispatch db user (post_detail pk)
                 = (mkResponse (Detail "Not found.")
                      status.HTTP_404_NOT_FOUND, db)).
Proof.
  intros Hwf. split.
  - intros p Hin.
    unfold dispatch, handler, PostRetrieveUpdateDestroyView.retrieve.
    replace (check_permissions _ _ _) with (@ret unit tt)
      by (now destruct user).
    simpl. now rewrite (post_get_object db p Hwf Hin).
  - intros pk Hno.
    unfold dispatch, handler, PostRetrieveUpdateDestroyView.retrieve,
      PostRetrieveUpdateDestroyView.get_object,
      PostRetrieveUpdateDestroyView.queryset.
    replace (check_permissions _ _ _) with (@ret unit tt)
      by (now destruct user).
    destruct (get_object_or_404_by_key Post.pk "Post" pk (posts db)
                (wf_post_pk db Hwf)) as [(x & Hin & Hk & _)|[_ ->]].
    + now apply Hno in Hin.
    + reflexivity.
Qed.

Lemma post_detail_found_or_404_witness :
  dispatch Example.db None (post_detail 1)
  = (mkResponse (OnePost Example.first_post) status.HTTP_200_OK, Example.db)
  /\ dispatch Example.db None (post_detail 7)
     = (mkResponse (Detail "Not found.") status.HTTP_404_NOT_FOUND,
        Example.db).
Proof.
  destruct (post_detail_found_or_404 Example.db None Example_wf) as [Hf Hn].
  split.
  - apply (Hf Example.first_post). simpl. auto.
  - apply Hn. simpl. intros p [<-|[]]. discriminate.
Defined.

(** X8. Reading one group, as an authenticated caller: 200 with the group
    that has the key of the path, 404 when none has. *)
Theorem group_detail_found_or_404 (db : DB) (u : User.t) :
  wf_db db ->
  (forall g, In g (groups db) ->
             dispatch db (Some u) (group_detail (Group.pk g))
             = (mkResponse (OneGroup g) status.HTTP_200_OK, db))
  /\ (forall pk, (forall g, In g (groups db) -> Group.pk g <> pk) ->
                 dispatch db (Some u) (group_detail pk)
                 = (mkResponse (Detail "Not found.")
                      status.HTTP_404_NOT_FOUND, db)).
Proof.
  intros Hwf.
  assert (H : forall pk,
             dispatch db (Some u) (group_detail pk)
             = match get_object_or_404 "Group" (fun g => Group.pk g =? pk)
                       (groups db) with
               | inr g => (mkResponse (OneGroup g) status.HTTP_200_OK, db)
               | inl e => (exception_handler e, db)
               end).
  { intros pk. unfold dispatch, handler, GroupDetailView.retrieve,
      GroupDetailView.queryset. simpl.
    now destruct (get_object_or_404 _ _ _). }
  split.
  - intros g Hin. rewrite H.
    destruct (get_object_or_404_by_key Group.pk "Group" (Group.pk g)
                (groups db) (wf_group_pk db Hwf))
      as [(x & Hx & Hk & ->)|[Hno _]].
    + assert (x = g)
        by (eapply (NoDup_key_inj Group.pk); eauto using wf_group_pk).
      now subst.
    + now apply Hno in Hin.
  - intros pk Hno. rewrite H.
    destruct (get_object_or_404_by_key Group.pk "Group" pk (groups db)
                (wf_group_pk db Hwf)) as [(x & Hin & Hk & _)|[_ ->]].
    + now apply Hno in Hin.
    + reflexivity.
Qed.

Lemma group_detail_found_or_404_witness :
  dispatch Example.db (Some Example.bob) (group_detail 3)
  = (mkResponse (OneGroup Example.news) status.HTTP_200_OK, Example.db)
  /\ dispatch Example.db (Some Example.bob) (group_detail 0)
     = (mkResponse (Detail "Not found.") status.HTTP_404_NOT_FOUND,
        Example.db).
Proof.
  destruct (group_detail_found_or_404 Example.db Example.bob Example_wf)
    as [Hf Hn].
  split.
  - apply (Hf Example.news). simpl. auto.
  - apply Hn. simpl. intros g [<-|[]]. discriminate.
Defined.

Lemma comment_get_object db c :
  wf_db db -> In c (comments db) ->
  CommentRetrieveUpdateDestroyView.get_object db (Comment.post c)
    (Comment.pk c) = ret c.
Proof.
  intros Hwf Hin.
  unfold CommentRetrieveUpdateDestroyView.get_object, get_object_or_404,
    CommentRetrieveUpdateDestroyView.get_queryset, qs_filter.
  rewrite (qs_get_one Comment.pk "Comment" _ _ c); [reflexivity| | |].
  - apply NoDup_map_filter, (wf_comment_pk db Hwf).
  - apply filter_In. split; [exact Hin|]. now rewrite !Z.eqb_refl.
  - intros y _. apply Z.eqb_eq.
Qed.

(** X9. A comment is read under its own post only: for every caller the
    path made of a comment's post and key is answered 200 with the comment,
    and a path whose two ids match no comment together (also the key of a
    comment under the id of another post) is answered 404. *)
Theorem comment_detail_scoped (db : DB) (user : option User.t) :
  wf_db db ->
  (forall c, In c (comments db) ->
             dispatch db user (comment_detail (Comment.post c) (Comment.pk c))
             = (mkResponse (OneComment c) status.HTTP_200_OK, db))
  /\ (forall post_id pk,
         (forall c, In c (comments db) -> Comment.post c = post_id ->
                    Comment.pk c <> pk) ->
         dispatch db user (comment_detail post_id pk)
         = (mkResponse (Detail "Not found.") status.HTTP_404_NOT_FOUND, db)).
Proof.
  intros Hwf. split.
  - intros c Hin.
    unfold dispatch, handler, CommentRetrieveUpdateDestroyView.retrieve.
    replace (check_permissions _ _ _) with (@ret unit tt)
      by (now destruct user).
    simpl. now rewrite (comment_get_object db c Hwf Hin).
  - intros post_id pk Hno.
    unfold dispatch, handler, CommentRetrieveUpdateDestroyView.retrieve.
    replace (check_permissions _ _ _) with (@ret unit tt)
      by (now destruct user).
    simpl. now rewrite (comment_get_object_mismatch db post_id pk Hno).
Qed.

Lemma comment_detail_scoped_witness :
  dispatch Example.db None (comment_detail 1 1)
  = (mkResponse (OneComment Example.first_comment) status.HTTP_200_OK,
     Example.db)
  /\ dispatch Example.db None (comment_detail 2 1)
     = (mkResponse (Detail "Not found.") status.HTTP_404_NOT_FOUND,
        Example.db).
Proof.
  destruct (comment_detail_scoped Example.db None Example_wf) as [Hf Hn].
  split.
  - apply (Hf Example.first_comment). simpl. auto.
  - apply Hn. simpl. intros c [<-|[]] Hp. discriminate Hp.
Defined.




(** ** Callers without a token *)

Lemma list_status {A} (many : list A -> Data) (rows : list A) (q : QueryDict) :
  match ListModelMixin_list many
          (Some StandardResultsPagination.paginate_queryset) rows q with
  | inr r => status_code r = status.HTTP_200_OK
  | inl e => e = NotFound "Invalid page."
  end.
Proof.
  unfold ListModelMixin_list, StandardResultsPagination.paginate_queryset,
    StandardResultsPagination.super_paginate_queryset,
    PageNumberPagination.paginate_queryset,
    PageNumberPagination.get_paginated_response.
  py_unfold. repeat break_match; py_inv; try discriminate;
    try reflexivity; congruence.
Qed.

(** X11. What a caller without a token may do. Every write (create, update,
    delete of posts and comments, follow) and also the follow list are
    answered 401 and change nothing. The lists of posts, comments and
    groups and the single post or comment are open: they are answered 200,
    or 404 where the row or the page does not exist. *)
Theorem anonymous_access (db : DB) (r : Request) :
  wf_db db ->
  (method_of r <> GET \/ (exists q, r = follow_list q) ->
   dispatch db None r
   = (mkResponse (Detail "Authentication credentials were not provided.")
        status.HTTP_401_UNAUTHORIZED, db))
  /\ (method_of r = GET ->
      (forall q, r <> follow_list q) -> (forall pk, r <> group_detail pk) ->
      In (status_code (fst (dispatch db None r)))
        [status.HTTP_200_OK; status.HTTP_404_NOT_FOUND]).
Proof.
  intros Hwf. split.
  - intros H. apply dispatch_refused.
    destruct r; simpl in *; try reflexivity;
      try (destruct partial; reflexivity);
      destruct H as [H|[q' H]]; congruence.
  - intros Hget Hfollow Hgroup.
    destruct r; simpl in Hget; try discriminate;
      try (destruct partial; discriminate).
    + rewrite dispatch_post_list.
      pose proof (list_status Posts (posts db) q) as H.
      destruct (ListModelMixin_list _ _ _ _); simpl; [subst|rewrite H];
        simpl; auto.
    + unfold dispatch, handler, PostRetrieveUpdateDestroyView.retrieve,
        PostRetrieveUpdateDestroyView.get_object,
        PostRetrieveUpdateDestroyView.queryset. simpl.
      destruct (get_object_or_404_by_key Post.pk "Post" pk (posts db)
                  (wf_post_pk db Hwf)) as [(x & _ & _ & ->)|[_ ->]];
        simpl; auto.
    + unfold dispatch, handler. simpl. auto.
    + unfold dispatch, handler, CommentRetrieveUpdateDestroyView.retrieve,
        CommentRetrieveUpdateDestroyView.get_object. simpl.
      destruct (get_object_or_404_by_key Comment.pk "Comment" pk
                  (CommentRetrieveUpdateDestroyView.get_queryset db post_id pk))
        as [(x & _ & _ & ->)|[_ ->]]; simpl; auto.
      apply NoDup_map_filter, (wf_comment_pk db Hwf).
    + rewrite dispatch_group_list.
      pose proof (list_status Groups (groups db) q) as H.
      destruct (ListModelMixin_list _ _ _ _); simpl; [subst|rewrite H];
        simpl; auto.
    + now elim (Hgroup pk).
    + now elim (Hfollow q).
Qed.

Lemma anonymous_access_witness :
  dispatch Example.db None
    (post_create (PostSerializer.mk (Value "hi") Absent Absent Absent))
  = (mkResponse (Detail "Authentication credentials were not provided.")
       status.HTTP_401_UNAUTHORIZED, Example.db)
  /\ dispatch Example.db None (follow_list [])
     = (mkResponse (Detail "Authentication credentials were not provided.")
          status.HTTP_401_UNAUTHORIZED, Example.db).
Proof.
  split.
  - apply (anonymous_access Example.db _ Example_wf). left. discriminate.
  - apply (anonymous_access Example.db _ Example_wf). right. now exists [].
Defined.

(** ** Creating and then reading *)

(** X12. A post request that names no group (no [group] entry, or [null])
    and has a valid text is answered 201; the post has the caller as author
    and no group. *)
Theorem post_create_without_group (db : DB) (u : User.t)
    (d : PostSerializer.initial_data) (text : string) :
  PostSerializer.group d = Absent \/ PostSerializer.group d = Null ->
  fields.CharField false (PostSerializer.text d) = Valid text ->
  error_of "image" (fields.ImageField (PostSerializer.image d)) = [] ->
  dispatch db (Some u) (post_create d)
  = (mkResponse
       (OnePost (Post.mk (post_seq db) text (User.pk u)
                   (value_of (fields.ImageField (PostSerializer.image d)))
                   None))
       status.HTTP_201_CREATED,
     snd (insert_post db text (User.pk u)
            (value_of (fields.ImageField (PostSerializer.image d))) None)).
Proof.
  intros Hg Ht Hi.
  unfold dispatch, handler, PostListCreateView.create,
    PostSerializer.is_valid, fields.PrimaryKeyRelatedField,
    PostListCreateView.perform_create.
  simpl. destruct Hg as [Hg|Hg]; rewrite Hg, Ht, Hi; reflexivity.
Qed.

Lemma post_create_without_group_witness :
  dispatch Example.db (Some Example.bob)
    (post_create (PostSerializer.mk (Value "plain") Absent Null Absent))
  = (mkResponse (OnePost (Post.mk 2 "plain" 2 None None))
       status.HTTP_201_CREATED,
     snd (insert_post Example.db "plain" 2 None None)).
Proof.
  apply (post_create_without_group Example.db Example.bob
           (PostSerializer.mk (Value "plain") Absent Null Absent) "plain");
    auto.
Defined.

Ltac py_inl :=
  repeat match goal with
         | H : inl _ = inl _ |- _ => inversion H; subst; clear H
         end.

(** X13. Creating a post never ends in a server error: on a well-formed
    store every post request of an authenticated caller is answered 201 or
    400. The faulty [except] branch of [perform_create] is never taken,
    because the serializer has resolved the group before. *)
Theorem post_create_201_or_400 (db : DB) (u : User.t)
    (d : PostSerializer.initial_data) :
  wf_db db ->
  In (status_code (fst (dispatch db (Some u) (post_create d))))
    [status.HTTP_201_CREATED; status.HTTP_400_BAD_REQUEST].
Proof.
  intros Hwf.
  unfold dispatch, handler, PostListCreateView.create,
    PostSerializer.is_valid, fields.PrimaryKeyRelatedField,
    PostListCreateView.perform_create.
  simpl.
  destruct (PostSerializer.group d) as [| |g]; simpl.
  - py_unfold. repeat break_match; py_inv; py_inl; simpl; auto;
      discriminate.
  - py_unfold. repeat break_match; py_inv; py_inl; simpl; auto;
      discriminate.
  - pose proof (qs_get_by_key Group.pk "Group" g (groups db)
                  (wf_group_pk db Hwf)) as H.
    destruct (find _ (groups db)); rewrite H; simpl.
    + py_unfold. repeat break_match; py_inv; py_inl; simpl; auto;
        discriminate.
    + py_unfold. repeat break_match; py_inv; py_inl; simpl; auto;
        match goal with
        | H : (_ ++ _ ++ [_])%list = [] |- _ =>
            apply (f_equal (@List.length _)) in H;
            rewrite !length_app in H; simpl in H; lia
        end.
Qed.

Lemma post_create_201_or_400_witness :
  In (status_code
        (fst (dispatch Example.db (Some Example.alice)
                (post_create
                   (PostSerializer.mk (Value "x") Absent (Value 999) Absent)))))
    [status.HTTP_201_CREATED; status.HTTP_400_BAD_REQUEST].
Proof. apply (post_create_201_or_400 Example.db _ _ Example_wf). Defined.

Lemma post_created db u d resp db' :
  dispatch db (Some u) (post_create d) = (resp, db') ->
  status_code resp = status.HTTP_201_CREATED ->
  exists text image group,
    resp = mkResponse
             (OnePost (Post.mk (post_seq db) text (User.pk u) image group))
             status.HTTP_201_CREATED
    /\ db' = snd (insert_post db text (User.pk u) image group).
Proof.
  unfold dispatch, handler, PostListCreateView.create,
    PostListCreateView.perform_create, PostSerializer.save_create.
  simpl. py_unfold. intros H Hs.
  repeat (break_match; py_inv; try discriminate); py_inv;
    try discriminate Hs;
    try match goal with
        | Hs : status_code (exception_handler ?e) = _ |- _ =>
            destruct e; discriminate Hs
        end;
    eexists _, _, _; split; reflexivity.
Qed.

(** X14. A post that was created can be read back: after a 201 the single
    post route answers, for every caller, 200 with the very post of the
    201, and the plain post list is the old list with that post at its
    end. *)
Theorem post_create_then_read (db : DB) (u : User.t)
    (d : PostSerializer.initial_data) (resp : Response) (db' : DB)
    (reader : option User.t) :
  wf_db db ->
  dispatch db (Some u) (post_create d) = (resp, db') ->
  status_code resp = status.HTTP_201_CREATED ->
  exists p,
    data resp = OnePost p
    /\ dispatch db' reader (post_detail (Post.pk p))
       = (mkResponse (OnePost p) status.HTTP_200_OK, db')
    /\ dispatch db' reader (post_list [])
       = (mkResponse (Posts (posts db ++ [p])) status.HTTP_200_OK, db').
Proof.
  intros Hwf Hd Hs.
  pose proof (dispatch_wf db (Some u) (post_create d) Hwf) as Hwf'.
  rewrite Hd in Hwf'. simpl in Hwf'.
  destruct (post_created db u d resp db' Hd Hs)
    as (text & image & group & -> & ->).
  eexists. split; [reflexivity|]. split.
  - unfold dispatch, handler, PostRetrieveUpdateDestroyView.retrieve.
    replace (check_permissions _ _ _) with (@ret unit tt)
      by (now destruct reader).
    cbn [bind ret read_only].
    rewrite (post_get_object _ (Post.mk (post_seq db) text (User.pk u) image
                                  group) Hwf').
    + reflexivity.
    + simpl. apply in_app_iff. right. now left.
  - rewrite dispatch_post_list. reflexivity.
Qed.

Lemma post_create_then_read_witness :
  exists p,
    dispatch (snd (insert_post Example.db "new" 2 None (Some 3))) None
      (post_detail (Post.pk p))
    = (mkResponse (OnePost p) status.HTTP_200_OK,
       snd (insert_post Example.db "new" 2 None (Some 3)))
    /\ Post.text p = "new".
Proof.
  destruct (post_create_then_read Example.db Example.bob
              (PostSerializer.mk (Value "new") Absent (Value 3) Absent)
              _ _ None Example_wf eq_refl eq_refl) as (p & Hp & Hd & _).
  exists p. split; [exact Hd|]. simpl in Hp. inversion Hp. reflexivity.
Defined.

(** X15. A comment that was created can be read back under its post: after
    a 201 the single comment route, with the post id of the creation and
    the key of the new comment, answers 200 with that comment for every
    caller; the comment has the caller as author and the post of the
    path. *)
Theorem comment_create_then_read (db : DB) (u : User.t) (post_id : Z)
    (d : CommentSerializer.initial_data) (resp : Response) (db' : DB)
    (reader : option User.t) :
  wf_db db ->
  dispatch db (Some u) (comment_create post_id d) = (resp, db') ->
  status_code resp = status.HTTP_201_CREATED ->
  exists c,
    data resp = OneComment c
    /\ Comment.author c = User.pk u
    /\ Comment.post c = post_id
    /\ dispatch db' reader (comment_detail post_id (Comment.pk c))
       = (mkResponse (OneComment c) status.HTTP_200_OK, db').
Proof.
  intros Hwf Hd Hs.
  pose proof (dispatch_wf db (Some u) (comment_create post_id d) Hwf) as Hwf'.
  rewrite Hd in Hwf'. simpl in Hwf'.
  destruct (comment_created db u post_id d resp db' Hd Hs) as (text & -> & ->).
  eexists. repeat (split; [reflexivity|]).
  unfold dispatch, handler, CommentRetrieveUpdateDestroyView.retrieve.
  replace (check_permissions _ _ _) with (@ret unit tt)
    by (now destruct reader).
  cbn [bind ret read_only].
  pose proof (comment_get_object _
                (Comment.mk (comment_seq db) text (User.pk u) post_id) Hwf')
    as Hg.
  cbn [Comment.post Comment.pk] in Hg |- *. rewrite Hg.
  - reflexivity.
  - simpl. apply in_app_iff. right. now left.
Qed.

Lemma comment_create_then_read_witness :
  exists c,
    dispatch (snd (insert_comment Example.db "me too" 1 1)) None
      (comment_detail 1 (Comment.pk c))
    = (mkResponse (OneComment c) status.HTTP_200_OK,
       snd (insert_comment Example.db "me too" 1 1))
    /\ Comment.author c = 1.
Proof.
  destruct (comment_create_then_read Example.db Example.alice 1
              (CommentSerializer.mk (Value "me too") (Value "bob") (Value 9))
              _ _ None Example_wf eq_refl eq_refl)
    as (c & _ & Ha & _ & Hd).
  exists c. split; [exact Hd | exact Ha].
Defined.

Lemma append_empty_r (s : string) : s ++ EmptyString = s.
Proof. induction s as [|c s IH]; simpl; [reflexivity | now rewrite IH]. Qed.

(** X16. A follow edge that was created shows in the caller's follow list:
    after a 201 the plain list of the caller is their old list with the new
    edge at its end, and a search for the name that was followed finds the
    edge as well. *)
Theorem follow_create_then_list (db : DB) (u : User.t)
    (d : FollowSerializer.initial_data) (resp : Response) (db1 : DB) :
  wf_db db ->
  dispatch db (Some u) (follow_create d) = (resp, db1) ->
  status_code resp = status.HTTP_201_CREATED ->
  exists f name,
    data resp = OneFollow f
    /\ Follow.user f = User.pk u
    /\ fields.CharField false (FollowSerializer.following d) = Valid name
    /\ dispatch db1 (Some u) (follow_list [])
       = (mkResponse (Follows (FollowView.get_queryset db u [] ++ [f]))
            status.HTTP_200_OK, db1)
    /\ exists rows,
        dispatch db1 (Some u) (follow_list [("search", name)])
        = (mkResponse (Follows rows) status.HTTP_200_OK, db1)
        /\ In f rows.
Proof.
  intros Hwf Hd Hs.
  destruct (follow_created db u d resp db1 Hwf Hd Hs)
    as (name & target & Hf & Ht & Hne & He & -> & ->).
  apply find_user_some in Ht. destruct Ht as [Hin Hname].
  set (f := Follow.mk (follow_seq db) (User.pk u) (User.pk target)).
  assert (Hown : In f (qs_filter (fun f => Follow.user f =? User.pk u)
                         (follows db ++ [f]))).
  { apply filter_In. split; [apply in_app_iff; right; now left|].
    simpl. apply Z.eqb_refl. }
  exists f, name. split; [reflexivity|]. split; [reflexivity|].
  split; [exact Hf|]. split.
  - unfold dispatch, handler, FollowView.get, FollowView.get_queryset,
      qs_filter. simpl. rewrite filter_app. simpl.
    now rewrite Z.eqb_refl.
  - eexists. split; [reflexivity|].
    unfold FollowView.get_queryset. simpl.
    destruct (PyStr.truthy name); [|exact Hown].
    apply filter_In. split; [exact Hown|].
    apply icontains_join. exists target. simpl. repeat split; auto.
    exists EmptyString, EmptyString. simpl.
    now rewrite Hname, append_empty_r.
Qed.

Lemma follow_create_then_list_witness :
  exists f,
    dispatch (snd (insert_follow Example.db 1 2)) (Some Example.alice)
      (follow_list [])
    = (mkResponse (Follows [f]) status.HTTP_200_OK,
       snd (insert_follow Example.db 1 2))
    /\ Follow.following f = 2.
Proof.
  destruct (follow_create_then_list Example.db Example.alice
              (FollowSerializer.mk (Value "bob") Absent) _ _
              Example_wf eq_refl eq_refl)
    as (f & name & Hf & _ & _ & Hl & _).
  exists f. split; [exact Hl|]. simpl in Hf. inversion Hf. reflexivity.
Defined.

(** ** Updating a post *)

Lemma in_overwrite_self {A} (key : A -> Z) (instance x : A) (l : list A) :
  In x l -> key x = key instance -> In instance (overwrite key instance l).
Proof.
  intros Hin E. unfold overwrite. apply in_map_iff. exists x.
  split; [|exact Hin]. apply Z.eqb_eq in E. now rewrite E.
Qed.

Lemma overwrite_same {A} (key : A -> Z) (x : A) (l : list A) :
  NoDup (map key l) -> In x l -> overwrite key x l = l.
Proof.
  intros Hnd Hin. unfold overwrite.
  rewrite <- (map_id l) at 2. apply map_ext_in. intros y Hy.
  destruct (Z.eqb_spec (key y) (key x)) as [E|E]; [|reflexivity].
  symmetry. eapply NoDup_key_inj; eauto.
Qed.

(** X17. The author changes the text of a post with PUT or PATCH: a body
    that carries only a valid text is answered 200 with the post under its
    old key, author, image and group and with the new, trimmed text; the
    post is read back so from the single post route, and every other post
    is still in the table. *)
Theorem post_update_text (db : DB) (u : User.t) (p : Post.t)
    (partial : bool) (s text : string) (a : field string)
    (reader : option User.t) :
  wf_db db -> In p (posts db) -> Post.author p = User.pk u ->
  fields.CharField false (Value s) = Valid text ->
  let p' := Post.mk (Post.pk p) text (Post.author p) (Post.image p)
              (Post.group p) in
  let db' := save_post db p' in
  dispatch db (Some u)
    (post_update partial (Post.pk p) (PostSerializer.mk (Value s) Absent Absent a))
  = (mkResponse (OnePost p') status.HTTP_200_OK, db')
  /\ dispatch db' reader (post_detail (Post.pk p))
     = (mkResponse (OnePost p') status.HTTP_200_OK, db')
  /\ (forall q, In q (posts db) -> Post.pk q <> Post.pk p ->
                In q (posts db')).
Proof.
  intros Hwf Hin Ha Ht p' db'.
  assert (Hd : dispatch db (Some u)
                 (post_update partial (Post.pk p)
                    (PostSerializer.mk (Value s) Absent Absent a))
               = (mkResponse (OnePost p') status.HTTP_200_OK, db')).
  { unfold dispatch, handler, PostRetrieveUpdateDestroyView.update,
      PostRetrieveUpdateDestroyView.super_update, PostSerializer.is_valid,
      PostSerializer.save_update.
    replace (check_permissions _ _ _) with (@ret unit tt)
      by (now destruct partial).
    cbn [bind ret request_user].
    rewrite (post_get_object db p Hwf Hin). cbn [bind ret].
    apply Z.eqb_eq in Ha. rewrite Ha. cbn [negb].
    cbn [PostSerializer.text PostSerializer.image PostSerializer.group
         fields.ImageField fields.PrimaryKeyRelatedField bind ret].
    replace (fields.CharField partial (Value s)) with (@Valid string text)
      by (rewrite <- Ht; reflexivity).
    reflexivity. }
  split; [exact Hd|]. split.
  - pose proof (dispatch_wf db (Some u)
                  (post_update partial (Post.pk p)
                     (PostSerializer.mk (Value s) Absent Absent a)) Hwf)
      as Hwf'.
    rewrite Hd in Hwf'. cbn [snd] in Hwf'.
    unfold dispatch, handler, PostRetrieveUpdateDestroyView.retrieve.
    replace (check_permissions _ _ _) with (@ret unit tt)
      by (now destruct reader).
    cbn [bind ret read_only].
    pose proof (post_get_object db' p' Hwf') as Hg.
    cbn [Post.pk p'] in Hg. rewrite Hg; [reflexivity|].
    apply (in_overwrite_self Post.pk p' p); [exact Hin | reflexivity].
  - intros q Hq Hne. now apply in_overwrite_other.
Qed.

Lemma post_update_text_witness :
  dispatch Example.db (Some Example.alice)
    (post_update true 1 (PostSerializer.mk (Value " edited ") Absent Absent
                           (Value "bob")))
  = (mkResponse (OnePost (Post.mk 1 "edited" 1 None (Some 3)))
       status.HTTP_200_OK,
     save_post Example.db (Post.mk 1 "edited" 1 None (Some 3))).
Proof.
  apply (post_update_text Example.db Example.alice Example.first_post true
           " edited " "edited" (Value "bob") None Example_wf);
    simpl; auto.
Defined.

(** X18. An update of a post by its author whose body names a group that
    does not exist is answered 400 with an entry for [group], for PUT and
    PATCH alike, and the post stays as it was. *)
Theorem post_update_unknown_group (db : DB) (u : User.t) (p : Post.t)
    (partial : bool) (d : PostSerializer.initial_data) (g : Z) :
  wf_db db -> In p (posts db) -> Post.author p = User.pk u ->
  PostSerializer.group d = Value g -> group_exists db g = false ->
  exists errors,
    dispatch db (Some u) (post_update partial (Post.pk p) d)
    = (mkResponse (Errors errors) status.HTTP_400_BAD_REQUEST, db)
    /\ In "group" (map fst errors).
Proof.
  intros Hwf Hin Ha Hd Hg.
  unfold dispatch, handler, PostRetrieveUpdateDestroyView.update,
    PostRetrieveUpdateDestroyView.super_update, PostSerializer.is_valid,
    fields.PrimaryKeyRelatedField.
  replace (check_permissions _ _ _) with (@ret unit tt)
    by (now destruct partial).
  cbn [bind ret request_user].
  rewrite (post_get_object db p Hwf Hin). cbn [bind ret].
  apply Z.eqb_eq in Ha. rewrite Ha. cbn [negb].
  rewrite Hd, (group_missing_get db g Hg). simpl.
  destruct (error_of "image" _ ++ error_of "text" _ ++ _)%list
    as [|e errors] eqn:E.
  - apply (f_equal (@List.length _)) in E. rewrite !length_app in E.
    simpl in E. lia.
  - simpl. eexists. split; [reflexivity|]. rewrite <- E.
    rewrite !map_app, !in_app_iff. right. right. now left.
Qed.

Lemma post_update_unknown_group_witness :
  exists errors,
    dispatch Example.db (Some Example.alice)
      (post_update true 1 (PostSerializer.mk Absent Absent (Value 8) Absent))
    = (mkResponse (Errors errors) status.HTTP_400_BAD_REQUEST, Example.db)
    /\ In "group" (map fst errors).
Proof.
  apply (post_update_unknown_group Example.db Example.alice
           Example.first_post true
           (PostSerializer.mk Absent Absent (Value 8) Absent) 8 Example_wf);
    simpl; auto.
Defined.

Lemma save_post_same db p :
  wf_db db -> In p (posts db) -> save_post db p = db.
Proof.
  intros Hwf Hin. unfold save_post.
  rewrite (overwrite_same Post.pk p (posts db) (wf_post_pk db Hwf) Hin).
  now destruct db.
Qed.

(** X19. PUT and PATCH differ on a body without entries. By the author, a
    PUT is answered 400 for the missing text and changes nothing; a PATCH is
    answered 200 with the post as it is, and the store is the same
    afterwards. *)
Theorem post_update_empty_body (db : DB) (u : User.t) (p : Post.t)
    (a : field string) :
  wf_db db -> In p (posts db) -> Post.author p = User.pk u ->
  dispatch db (Some u)
    (post_update false (Post.pk p) (PostSerializer.mk Absent Absent Absent a))
  = (mkResponse (Errors [("text", "This field is required.")])
       status.HTTP_400_BAD_REQUEST, db)
  /\ dispatch db (Some u)
       (post_update true (Post.pk p)
          (PostSerializer.mk Absent Absent Absent a))
     = (mkResponse (OnePost p) status.HTTP_200_OK, db).
Proof.
  intros Hwf Hin Ha. apply Z.eqb_eq in Ha.
  unfold dispatch, handler, PostRetrieveUpdateDestroyView.update,
    PostRetrieveUpdateDestroyView.super_update.
  split.
  - replace (check_permissions _ _ _) with (@ret unit tt) by reflexivity.
    cbn [bind ret request_user].
    rewrite (post_get_object db p Hwf Hin). cbn [bind ret].
    rewrite Ha. reflexivity.
  - replace (check_permissions _ _ _) with (@ret unit tt) by reflexivity.
    cbn [bind ret request_user].
    rewrite (post_get_object db p Hwf Hin). cbn [bind ret].
    rewrite Ha. simpl.
    replace (Post.mk (Post.pk p) (Post.text p) (Post.author p) (Post.image p)
               (Post.group p)) with p by (now destruct p).
    now rewrite (save_post_same db p Hwf Hin).
Qed.

Lemma post_update_empty_body_witness :
  dispatch Example.db (Some Example.alice)
    (post_update true 1 (PostSerializer.mk Absent Absent Absent Absent))
  = (mkResponse (OnePost Example.first_post) status.HTTP_200_OK, Example.db).
Proof.
  apply (post_update_empty_body Example.db Example.alice Example.first_post
           Absent Example_wf); simpl; auto.
Defined.

(** ** More on paging *)



Lemma firstn_plus {A} (a b : nat) (l : list A) :
  firstn (a + b) l = (firstn a l ++ firstn b (skipn a l))%list.
Proof.
  rewrite firstn_skipn_comm.
  rewrite <- (firstn_skipn a (firstn (a + b) l)) at 1.
  rewrite firstn_firstn. now replace (Nat.min a (a + b)) with a by lia.
Qed.

Lemma concat_pieces {A} (s : nat) (l : list A) (k : nat) :
  List.concat (map (fun i => firstn s (skipn (i * s) l)) (seq 0 k))
  = firstn (k * s) l.
Proof.
  induction k as [|k IH]; [reflexivity|].
  rewrite seq_S, map_app, concat_app, IH. simpl.
  rewrite app_nil_r. rewrite (Nat.add_comm s (k * s)).
  symmetry. apply firstn_plus.
Qed.

Lemma num_pages_reach (count size : Z) :
  1 <= size ->
  count <= PageNumberPagination.Paginator_num_pages count size * size.
Proof.
  intros Hs. unfold PageNumberPagination.Paginator_num_pages.
  pose proof (Z.div_mod (Z.max 1 count + size - 1) size ltac:(lia)) as Hd.
  pose proof (Z.mod_pos_bound (Z.max 1 count + size - 1) size ltac:(lia)).
  nia.
Qed.

(** X21. Paging loses and repeats nothing: for the page size of any query,
    the pages 1 up to the number of pages, one after the other, are the
    whole collection in its order. *)
Theorem pages_cover_collection (A : Type) (rows : list A) (q : QueryDict) :
  let size := StandardResultsPagination.get_page_size q in
  let num_pages :=
    PageNumberPagination.Paginator_num_pages (Z.of_nat (List.length rows))
      size in
  List.concat (map (PageNumberPagination.Paginator_page rows size)
            (page_numbers num_pages))
  = rows.
Proof.
  intros size num_pages.
  assert (Hb : 1 <= size <= 100) by apply page_size_bounds.
  pose proof (num_pages_reach (Z.of_nat (List.length rows)) size (proj1 Hb))
    as Hreach.
  pose proof (num_pages_positive (Z.of_nat (List.length rows)) size (proj1 Hb))
    as Hpos.
  fold num_pages in Hreach, Hpos. clearbody num_pages size.
  unfold page_numbers. rewrite <- seq_shift, !map_map.
  rewrite (map_ext _ (fun i => firstn (Z.to_nat size)
                                 (skipn (i * Z.to_nat size) rows))).
  - rewrite concat_pieces. apply firstn_all2. nia.
  - intros i. rewrite Paginator_page_chunk by lia. unfold chunk.
    do 2 f_equal. nia.
Qed.

(** ** Deleting and then reading *)

Lemma post_detail_missing db reader pk :
  (forall p, In p (posts db) -> Post.pk p <> pk) ->
  dispatch db reader (post_detail pk)
  = (mkResponse (Detail "Not found.") status.HTTP_404_NOT_FOUND, db).
Proof.
  intros Hno.
  unfold dispatch, handler, PostRetrieveUpdateDestroyView.retrieve,
    PostRetrieveUpdateDestroyView.get_object, get_object_or_404,
    PostRetrieveUpdateDestroyView.queryset.
  replace (check_permissions _ _ _) with (@ret unit tt)
    by (now destruct reader).
  rewrite qs_get_none; [reflexivity|].
  intros y Hy. apply Z.eqb_neq. now apply Hno.
Qed.

(** X22. A post deleted by its author is gone: the delete is answered 204;
    afterwards no row of the table has the key, the single post route
    answers 404 for every caller, and every other post is still there. *)
Theorem post_destroy_then_gone (db : DB) (u : User.t) (p : Post.t)
    (reader : option User.t) :
  wf_db db -> In p (posts db) -> Post.author p = User.pk u ->
  let result := dispatch db (Some u) (post_destroy (Post.pk p)) in
  status_code (fst result) = status.HTTP_204_NO_CONTENT
  /\ (forall q, In q (posts (snd result)) -> Post.pk q <> Post.pk p)
  /\ dispatch (snd result) reader (post_detail (Post.pk p))
     = (mkResponse (Detail "Not found.") status.HTTP_404_NOT_FOUND,
        snd result)
  /\ (forall q, In q (posts db) -> Post.pk q <> Post.pk p ->
                In q (posts (snd result))).
Proof.
  intros Hwf Hin Ha result.
  assert (Hd : result
               = (mkResponse NoData status.HTTP_204_NO_CONTENT,
                  delete_post db p)).
  { unfold result, dispatch, handler, PostRetrieveUpdateDestroyView.destroy,
      PostRetrieveUpdateDestroyView.super_destroy.
    simpl. rewrite (post_get_object db p Hwf Hin). simpl.
    apply Z.eqb_eq in Ha. now rewrite Ha. }
  rewrite Hd. cbn [fst snd].
  assert (Hgone : forall q, In q (posts (delete_post db p)) ->
                            Post.pk q <> Post.pk p).
  { intros q Hq. simpl in Hq. apply filter_In in Hq. destruct Hq as [_ Hq].
    now apply negb_true_iff, Z.eqb_neq in Hq. }
  split; [reflexivity|]. split; [exact Hgone|]. split.
  - now apply post_detail_missing.
  - intros q Hq Hne. simpl. apply filter_In. split; [exact Hq|].
    now apply negb_true_iff, Z.eqb_neq.
Qed.

Lemma post_destroy_then_gone_witness :
  dispatch (snd (dispatch Example.db (Some Example.alice) (post_destroy 1)))
    None (post_detail 1)
  = (mkResponse (Detail "Not found.") status.HTTP_404_NOT_FOUND,
     snd (dispatch Example.db (Some Example.alice) (post_destroy 1))).
Proof.
  apply (post_destroy_then_gone Example.db Example.alice Example.first_post
           None Example_wf); simpl; auto.
Defined.

(** X23. A comment deleted by its author is gone: the delete is answered
    204; afterwards the single comment route answers 404 under the same
    path for every caller, the comment is not in the list of its post any
    more, and every other comment is still in the table. *)
Theorem comment_destroy_then_gone (db : DB) (u : User.t) (c : Comment.t)
    (reader : option User.t) :
  wf_db db -> In c (comments db) -> Comment.author c = User.pk u ->
  let result :=
    dispatch db (Some u) (comment_destroy (Comment.post c) (Comment.pk c)) in
  status_code (fst result) = status.HTTP_204_NO_CONTENT
  /\ dispatch (snd result) reader
       (comment_detail (Comment.post c) (Comment.pk c))
     = (mkResponse (Detail "Not found.") status.HTTP_404_NOT_FOUND,
        snd result)
  /\ ~ In c (CommentListCreateView.get_queryset (snd result) (Comment.post c))
  /\ (forall c', In c' (comments db) -> Comment.pk c' <> Comment.pk c ->
                 In c' (comments (snd result))).
Proof.
  intros Hwf Hin Ha result.
  assert (Hd : result
               = (mkResponse NoData status.HTTP_204_NO_CONTENT,
                  delete_comment db c)).
  { unfold result, dispatch, handler,
      CommentRetrieveUpdateDestroyView.destroy,
      CommentRetrieveUpdateDestroyView.super_destroy.
    simpl. rewrite (comment_get_object db c Hwf Hin). simpl.
    apply Z.eqb_eq in Ha. now rewrite Ha. }
  rewrite Hd. cbn [fst snd].
  assert (Hgone : forall c', In c' (comments (delete_comment db c)) ->
                             Comment.pk c' <> Comment.pk c).
  { intros c' Hc'. simpl in Hc'. apply filter_In in Hc'.
    destruct Hc' as [_ Hc']. now apply negb_true_iff, Z.eqb_neq in Hc'. }
  split; [reflexivity|]. split; [|split].
  - unfold dispatch, handler, CommentRetrieveUpdateDestroyView.retrieve.
    replace (check_permissions _ _ _) with (@ret unit tt)
      by (now destruct reader).
    cbn [bind ret read_only].
    rewrite comment_get_object_mismatch; [reflexivity|].
    intros c' Hc' _. now apply Hgone.
  - intros Hc. unfold CommentListCreateView.get_queryset, qs_filter in Hc.
    apply filter_In in Hc. destruct Hc as [Hc _].
    now apply (Hgone c Hc).
  - intros c' Hc' Hne. simpl. apply filter_In. split; [exact Hc'|].
    now apply negb_true_iff, Z.eqb_neq.
Qed.

Lemma comment_destroy_then_gone_witness :
  dispatch (snd (dispatch Example.db (Some Example.bob) (comment_destroy 1 1)))
    None (comment_detail 1 1)
  = (mkResponse (Detail "Not found.") status.HTTP_404_NOT_FOUND,
     snd (dispatch Example.db (Some Example.bob) (comment_destroy 1 1))).
Proof.
  apply (comment_destroy_then_gone Example.db Example.bob
           Example.first_comment None Example_wf); simpl; auto.
Defined.
